(** * Dialog helper of office-js-helpers: size optimisation, construction,
      the lazily opened result promise and the close/send operation.

    Source: [src/helpers/dialog.ts].  The development follows the class
    [Dialog<T>] method by method.  JavaScript numbers are modelled as
    extended rationals (exact arithmetic, no binary64 rounding, no signed
    zero); objects that the runtime shares by reference (promises, host
    dialogs) live in an explicit store. *)

From Stdlib Require Import QArith Lqa DecimalString Ascii.
From stdpp Require Import base list strings.

Local Open Scope string_scope.
Local Open Scope list_scope.

(** ** JavaScript numbers *)

Inductive number : Type :=
| Fin (q : Q)
| PInf
| NInf
| NaN.

Definition Qlt_bool (p q : Q) : bool := negb (Qle_bool q p).

(** [a < b] of the language: false as soon as one side is NaN. *)
Definition num_ltb (a b : number) : bool :=
  match a, b with
  | NaN, _ | _, NaN => false
  | Fin p, Fin q => Qlt_bool p q
  | NInf, Fin _ | NInf, PInf | Fin _, PInf => true
  | _, _ => false
  end.

(** [a <= b] of the language. *)
Definition num_leb (a b : number) : bool :=
  match a, b with
  | NaN, _ | _, NaN => false
  | Fin p, Fin q => Qle_bool p q
  | NInf, _ | _, PInf => true
  | _, _ => false
  end.

Definition num_sub (a b : number) : number :=
  match a, b with
  | NaN, _ | _, NaN => NaN
  | Fin p, Fin q => Fin (p - q)
  | PInf, PInf | NInf, NInf => NaN
  | PInf, _ | _, NInf => PInf
  | NInf, _ | _, PInf => NInf
  end.

Definition inf_of_sign (positive : bool) : number :=
  if positive then PInf else NInf.

Definition num_mul (a b : number) : number :=
  match a, b with
  | NaN, _ | _, NaN => NaN
  | Fin p, Fin q => Fin (p * q)
  | Fin p, PInf | PInf, Fin p =>
      if Qeq_bool p 0 then NaN else inf_of_sign (Qlt_bool 0 p)
  | Fin p, NInf | NInf, Fin p =>
      if Qeq_bool p 0 then NaN else inf_of_sign (Qlt_bool p 0)
  | PInf, PInf | NInf, NInf => PInf
  | PInf, NInf | NInf, PInf => NInf
  end.

Definition num_div (a b : number) : number :=
  match a, b with
  | NaN, _ | _, NaN => NaN
  | Fin p, Fin q =>
      if Qeq_bool q 0
      then (if Qeq_bool p 0 then NaN else inf_of_sign (Qlt_bool 0 p))
      else Fin (p / q)
  | Fin _, _ => Fin 0
  | PInf, Fin q => inf_of_sign (Qle_bool 0 q)
  | NInf, Fin q => inf_of_sign (Qlt_bool q 0)
  | _, _ => NaN
  end.

(** Numeric equality up to the representation of a fraction. *)
Definition num_eqb (a b : number) : bool :=
  match a, b with
  | Fin p, Fin q => Qeq_bool p q
  | PInf, PInf | NInf, NInf => true
  | _, _ => false
  end.

(** An optional numeric parameter ([width?: number]) is [None] when the
    caller leaves it out.  [to_number] is the coercion the language applies
    to it inside [<] and [*]: [undefined] becomes NaN. *)
Definition to_number (v : option number) : number :=
  match v with
  | Some n => n
  | None => NaN
  end.

(** Truthiness of an optional number, as [&&] tests it. *)
Definition truthy (v : option number) : bool :=
  match v with
  | None | Some NaN => false
  | Some (Fin q) => negb (Qeq_bool q 0)
  | Some _ => true
  end.

(** ** The size optimiser *)

(** [window.screen]. *)
Record Screen : Type := { screenWidth : number; screenHeight : number }.

(** [IDialogSize]; [width_pc] and [height_pc] stand for the fields
    [width$] and [height$]. *)
Record IDialogSize : Type := {
  width_pc : number;
  height_pc : number;
  width : number;
  height : number
}.

Definition margin : number := Fin 30.

(** [_maxSize(value, max)]: [value < (max - 30) ? value : max - 30].  The
    first branch is only taken when the comparison holds, and then [value]
    is a number, so returning its coercion returns [value] itself. *)
Definition _maxSize (value : option number) (max : number) : number :=
  if num_ltb (to_number value) (num_sub max margin)
  then to_number value
  else num_sub max margin.

(** [_percentage(value, max)]: [value * 100 / max]. *)
Definition _percentage (value max : number) : number :=
  num_div (num_mul value (Fin 100)) max.

Section SizeOptimizer.

Variable screen : Screen.

(** [_optimizeSize(width, height)]. *)
Definition _optimizeSize (w h : option number) : IDialogSize :=
  let screenWidth := screenWidth screen in
  let screenHeight := screenHeight screen in
  let optimizedWidth := _maxSize w screenWidth in
  let optimizedHeight := _maxSize h screenHeight in
  {| width_pc := _percentage optimizedWidth screenWidth;
     height_pc := _percentage optimizedHeight screenHeight;
     width := optimizedWidth;
     height := optimizedHeight |}.

(** [_getSize(width, height)]; [None] is the [undefined] the method
    returns when it falls off its last [else if]. *)
Definition _getSize (w h : option number) : option IDialogSize :=
  let screenWidth := screenWidth screen in
  if truthy w && truthy h then Some (_optimizeSize w h)
  else if num_leb screenWidth (Fin 640)
       then Some (_optimizeSize (Some (Fin 640)) (Some (Fin 480)))
  else if num_leb screenWidth (Fin 1366)
       then Some (_optimizeSize (Some (Fin 1024)) (Some (Fin 768)))
  else if num_leb screenWidth (Fin 1920)
       then Some (_optimizeSize (Some (Fin 1600)) (Some (Fin 900)))
  else None.

End SizeOptimizer.

Definition size_eqb (a b : IDialogSize) : bool :=
  num_eqb (width a) (width b) && num_eqb (height a) (height b)
  && num_eqb (width_pc a) (width_pc b) && num_eqb (height_pc a) (height_pc b).

(** ** Values of the language *)

(** What a variable of type [any] may hold.  Functions are opaque.  The
    property list of an object is its own enumerable string-keyed
    properties in enumeration order.  [DialogError message innerError] is
    an instance of the imported class [DialogError]; [TypeError] is the
    error the runtime raises itself (its text is engine specific). *)
#[warnings="-register-all"]
Inductive any : Type :=
| VUndefined
| VNull
| VBool (b : bool)
| VNumber (n : number)
| VString (s : string)
| VFunction
| VArray (items : list any)
| VObject (props : list (string * any))
| DialogError (message : any) (innerError : any)
| TypeError.

(** The class an error object was built from. *)
Definition error_class (v : any) : option string :=
  match v with
  | DialogError _ _ => Some "DialogError"
  | TypeError => Some "TypeError"
  | _ => None
  end.

(** [typeof v]. *)
Definition typeof (v : any) : string :=
  match v with
  | VUndefined => "undefined"
  | VBool _ => "boolean"
  | VNumber _ => "number"
  | VString _ => "string"
  | VFunction => "function"
  | _ => "object"
  end.

(** [v == null]. *)
Definition loosely_null (v : any) : bool :=
  match v with
  | VUndefined | VNull => true
  | _ => false
  end.

Fixpoint own_property (name : string) (props : list (string * any)) : option any :=
  match props with
  | [] => None
  | (k, v) :: rest => if String.eqb k name then Some v else own_property name rest
  end.

(** ** JSON.stringify *)

Definition dquote : string := String "034"%char EmptyString.

Definition hex_digit (n : nat) : ascii :=
  if (n <? 10)%nat then ascii_of_nat (48 + n) else ascii_of_nat (87 + n).

(** One code unit of a quoted string. *)
Definition escape_char (c : ascii) : string :=
  let n := nat_of_ascii c in
  if (n =? 8)%nat then "\b"
  else if (n =? 9)%nat then "\t"
  else if (n =? 10)%nat then "\n"
  else if (n =? 12)%nat then "\f"
  else if (n =? 13)%nat then "\r"
  else if (n =? 34)%nat then "\" +:+ dquote
  else if (n =? 92)%nat then "\\"
  else if (n <? 32)%nat
       then "\u00" +:+ String (hex_digit (n / 16)) (String (hex_digit (n mod 16)) EmptyString)
  else String c EmptyString.

Fixpoint escape (s : string) : string :=
  match s with
  | EmptyString => EmptyString
  | String c rest => escape_char c +:+ escape rest
  end.

(** [QuoteJSONString]. *)
Definition quote (s : string) : string := dquote +:+ escape s +:+ dquote.

(** Text of a finite number.  Integers below 10^21 in magnitude print in
    plain decimal; the shortest round-trip text of other numbers depends on
    their binary64 value, which is outside the model ([None]). *)
Definition number_text (q : Q) : option string :=
  let r := Qred q in
  if Pos.eqb (Qden r) 1 && (Z.abs (Qnum r) <? 10 ^ 21)%Z
  then Some (NilZero.string_of_int (Z.to_int (Qnum r)))
  else None.

Definition has_toJSON (props : list (string * any)) : bool :=
  match own_property "toJSON" props with
  | Some VFunction => true
  | _ => false
  end.

(** [JSON.stringify v], without replacer or indentation.  The outer option
    is [None] where the model has no answer (a [toJSON] hook, an error
    object, a number without plain decimal text); the inner one is [None]
    where the runtime answers [undefined]. *)
Fixpoint JSON_stringify (v : any) : option (option string) :=
  match v with
  | VUndefined | VFunction => Some None
  | VNull => Some (Some "null")
  | VBool b => Some (Some (if b then "true" else "false"))
  | VNumber (Fin q) => option_map Some (number_text q)
  | VNumber _ => Some (Some "null")
  | VString s => Some (Some (quote s))
  | VArray items =>
      let parts :=
        (fix elements (l : list any) : option (list string) :=
           match l with
           | [] => Some []
           | x :: rest =>
               match JSON_stringify x, elements rest with
               | Some t, Some ts => Some (default "null" t :: ts)
               | _, _ => None
               end
           end) items in
      option_map (fun ps => Some ("[" +:+ String.concat "," ps +:+ "]")) parts
  | VObject props =>
      if has_toJSON props then None
      else
        let parts :=
          (fix members (l : list (string * any)) : option (list string) :=
             match l with
             | [] => Some []
             | (k, x) :: rest =>
                 match JSON_stringify x, members rest with
                 | Some (Some t), Some ts => Some ((quote k +:+ ":" +:+ t) :: ts)
                 | Some None, Some ts => Some ts
                 | _, _ => None
                 end
             end) props in
        option_map (fun ps => Some ("{" +:+ String.concat "," ps +:+ "}")) parts
  | DialogError _ _ | TypeError => None
  end.

(** ** The store and the host *)

(** A promise is referred to by its index in the store: two reads give the
    identical promise exactly when they give the same index. *)
Definition handle : Type := nat.

(** [Adopting] is a promise resolved with a thenable: it is locked to it
    and no longer pending, its final state is the thenable's. *)
Inductive promise_state : Type :=
| Pending
| Fulfilled (v : any)
| Rejected (reason : any)
| Adopting (thenable : any).

Inductive EventType : Type := DialogMessageReceived | DialogEventReceived.

(** The two arrow functions of [_open], with what they capture: the
    promise whose [resolve]/[reject] they call and the host dialog. *)
Inductive listener : Type :=
| OnMessage (promise : handle) (dialog : nat)
| OnEvent (promise : handle) (dialog : nat).

(** One call of [Office.context.ui.displayDialogAsync(url, options,
    callback)]; the callback is identified by the promise it captures. *)
Record DisplayCall : Type := {
  call_url : string;
  call_width : number;
  call_height : number;
  call_callback : handle
}.

(** An instance of the class [Dialog]. *)
Record Dialog : Type := {
  url : string;
  _width : option number;
  _height : option number;
  size : IDialogSize;
  _result : option handle
}.

(** [this._result = h]. *)
Definition set_result (d : Dialog) (h : handle) : Dialog :=
  {| url := url d; _width := _width d; _height := _height d;
     size := size d; _result := Some h |}.

(** The store: the [Dialog] objects and the promises, each by allocation
    order, and what the host has been asked so far, oldest first: the
    [displayDialogAsync] calls, the listeners added to its dialogs, the
    dialogs whose [close()] was called and the texts given to
    [messageParent]. *)
Record world : Type := {
  objects : list Dialog;
  promises : list promise_state;
  displayed : list DisplayCall;
  listeners : list (nat * EventType * listener);
  closed : list nat;
  posted : list any
}.

Definition empty_world : world :=
  {| objects := []; promises := []; displayed := []; listeners := [];
     closed := []; posted := [] |}.

Definition with_objects (f : list Dialog -> list Dialog) (w : world) : world :=
  {| objects := f (objects w); promises := promises w; displayed := displayed w;
     listeners := listeners w; closed := closed w; posted := posted w |}.

Definition with_promises (f : list promise_state -> list promise_state) (w : world) : world :=
  {| objects := objects w; promises := f (promises w); displayed := displayed w;
     listeners := listeners w; closed := closed w; posted := posted w |}.

Definition with_displayed (f : list DisplayCall -> list DisplayCall) (w : world) : world :=
  {| objects := objects w; promises := promises w; displayed := f (displayed w);
     listeners := listeners w; closed := closed w; posted := posted w |}.

Definition with_listeners
    (f : list (nat * EventType * listener) -> list (nat * EventType * listener))
    (w : world) : world :=
  {| objects := objects w; promises := promises w; displayed := displayed w;
     listeners := f (listeners w); closed := closed w; posted := posted w |}.

Definition with_closed (f : list nat -> list nat) (w : world) : world :=
  {| objects := objects w; promises := promises w; displayed := displayed w;
     listeners := listeners w; closed := f (closed w); posted := posted w |}.

Definition with_posted (f : list any -> list any) (w : world) : world :=
  {| objects := objects w; promises := promises w; displayed := displayed w;
     listeners := listeners w; closed := closed w; posted := f (posted w) |}.

(** ** Computations that may throw *)

(** A call returns, throws, or leaves the part of the language that is
    modelled. *)
Inductive outcome (A : Type) : Type :=
| Ok (a : A)
| Throw (e : any)
| Unmodelled.
Arguments Ok {A} a.
Arguments Throw {A} e.
Arguments Unmodelled {A}.

Definition M (A : Type) : Type := world -> outcome A * world.

Definition ret {A} (a : A) : M A := fun w => (Ok a, w).
Definition throw {A} (e : any) : M A := fun w => (Throw e, w).
Definition unmodelled {A} : M A := fun w => (Unmodelled, w).

Definition bind {A B} (m : M A) (k : A -> M B) : M B :=
  fun w =>
    match m w with
    | (Ok a, w') => k a w'
    | (Throw e, w') => (Throw e, w')
    | (Unmodelled, w') => (Unmodelled, w')
    end.

Notation "'let*' x ':=' m 'in' k" := (bind m (fun x => k))
  (at level 10, x name, m at level 100, k at level 200).
Notation "m1 ;;; m2" := (bind m1 (fun _ => m2))
  (at level 100, m2 at level 200, right associativity).

(** [try { body } catch (exception) { handler }]. *)
Definition try_catch {A} (body : M A) (handler : any -> M A) : M A :=
  fun w =>
    match body w with
    | (Throw e, w') => handler e w'
    | r => r
    end.

(** [try { body } finally { final }]: the outcome of [body] stands unless
    [final] itself ends abruptly. *)
Definition try_finally {A} (body : M A) (final : M unit) : M A :=
  fun w =>
    let (r, w') := body w in
    match final w' with
    | (Ok _, w'') => (r, w'')
    | (Throw e, w'') => (Throw e, w'')
    | (Unmodelled, w'') => (Unmodelled, w'')
    end.

Definition get (w : world) : outcome world * world := (Ok w, w).
Definition modify (f : world -> world) : M unit := fun w => (Ok tt, f w).

(** ** Promises *)

(** An object whose [then] is callable. *)
Definition is_thenable (v : any) : bool :=
  match v with
  | VObject props =>
      match own_property "then" props with
      | Some VFunction => true
      | _ => false
      end
  | _ => false
  end.

(** Only a pending promise changes state; later calls of its [resolve] or
    [reject] do nothing. *)
Definition settle (p : handle) (s : promise_state) : M unit :=
  modify (with_promises (fun ps =>
    match ps !! p with
    | Some Pending => <[p := s]> ps
    | _ => ps
    end)).

(** The [resolve] function of promise [p].  A thenable is adopted, not
    delivered; what an opaque function would do there is not modelled. *)
Definition resolve (p : handle) (v : any) : M unit :=
  match v with
  | VFunction => unmodelled
  | _ => settle p (if is_thenable v then Adopting v else Fulfilled v)
  end.

(** The [reject] function of promise [p]. *)
Definition reject (p : handle) (reason : any) : M unit :=
  settle p (Rejected reason).

(** [new Promise(executor)]: the executor runs at once; if it throws, the
    promise is rejected with what it threw. *)
Definition new_Promise (executor : handle -> M unit) : M handle :=
  let* w := get in
  let p := length (promises w) in
  modify (with_promises (fun ps => ps ++ [Pending])) ;;;
  try_catch (executor p) (fun e => reject p e) ;;;
  ret p.

(** ** Host primitives *)

Definition displayDialogAsync (u : string) (w h : number) (callback : handle) : M unit :=
  modify (with_displayed (fun calls =>
    calls ++ [{| call_url := u; call_width := w; call_height := h;
                 call_callback := callback |}])).

Definition addEventHandler (dialog : nat) (ev : EventType) (l : listener) : M unit :=
  modify (with_listeners (fun ls => ls ++ [(dialog, ev, l)])).

(** [dialog.close()] of the host's dialog handler. *)
Definition dialog_close (dialog : nat) : M unit :=
  modify (with_closed (fun cs => cs ++ [dialog])).

(** [o.name]: reading a property of [undefined] or [null] throws; reads
    that go through a prototype are not modelled. *)
Definition read_property (o : any) (name : string) : outcome any :=
  match o with
  | VUndefined | VNull => Throw TypeError
  | VObject props => Ok (default VUndefined (own_property name props))
  | _ => Unmodelled
  end.

Definition get_property (o : any) (name : string) : M any :=
  fun w => (read_property o name, w).

Inductive AsyncResultStatus : Type := Succeeded | Failed.

(** [Office.AsyncResult]; [value] is the host's dialog handler. *)
Record AsyncResult : Type := {
  status : AsyncResultStatus;
  error : any;
  value : nat
}.

(** The ambient globals: [Utilities.isAddin], [location.origin],
    [window.screen], and whether the host refuses [messageParent] (with
    which error). *)
Record Env : Type := {
  isAddin : bool;
  origin : string;
  screen : Screen;
  messageParent_fault : option any
}.

Section DialogClass.

Variable env : Env.

(** [Office.context.ui.messageParent(text)]. *)
Definition messageParent (text : any) : M unit :=
  modify (with_posted (fun ms => ms ++ [text])) ;;;
  match messageParent_fault env with
  | Some e => throw e
  | None => ret tt
  end.

(** [new Dialog(url, width, height)]; the result is the new object's
    place in the store. *)
Definition new_Dialog (url : option string) (width height : option number) : M nat :=
  let url := default (origin env) url in
  if negb (isAddin env)
  then throw (DialogError (VString "This API cannot be used outside of Office.js") VUndefined)
  else if negb (String.prefix "https" url)
  then throw (DialogError (VString "URL has to be loaded over HTTPS.") VUndefined)
  else
    let this := {| url := url; _width := width; _height := height;
                   size := _optimizeSize (screen env) width height;
                   _result := None |} in
    let* w := get in
    modify (with_objects (fun os => os ++ [this])) ;;;
    ret (length (objects w)).

Definition deref (this : nat) : M Dialog :=
  fun w =>
    match objects w !! this with
    | Some d => (Ok d, w)
    | None => (Unmodelled, w)
    end.

Definition assign_result (this : nat) (p : handle) : M unit :=
  modify (with_objects (fun os =>
    match os !! this with
    | Some d => <[this := set_result d p]> os
    | None => os
    end)).

(** [_open()], up to the call of the host; the callback and the two
    listeners it installs follow. *)
Definition _open (this : nat) : M handle :=
  new_Promise (fun p =>
    let* d := deref this in
    displayDialogAsync (url d) (width_pc (size d)) (height_pc (size d)) p).

(** The getter [result]. *)
Definition result (this : nat) : M (option handle) :=
  let* d := deref this in
  (match _result d with
   | None => let* p := _open this in assign_result this p
   | Some _ => ret tt
   end) ;;;
  let* d := deref this in
  ret (_result d).

(** The callback handed to [displayDialogAsync], for the promise [p]. *)
Definition display_callback (p : handle) (result : AsyncResult) : M unit :=
  match status result with
  | Failed =>
      let* m := get_property (error result) "message" in
      throw (DialogError m VUndefined)
  | Succeeded =>
      let dialog := value result in
      addEventHandler dialog DialogMessageReceived (OnMessage p dialog) ;;;
      addEventHandler dialog DialogEventReceived (OnEvent p dialog)
  end.

Definition unexpected : any :=
  VString "An unexpected error in the dialog has occured.".

(** Body of a listener, called by the host with the event's [args]. *)
Definition invoke (l : listener) (args : any) : M unit :=
  match l with
  | OnMessage p dialog =>
      try_finally
        (try_catch
           (let* m := get_property args "message" in resolve p m)
           (fun exception => reject p (DialogError unexpected exception)))
        (dialog_close dialog)
  | OnEvent p dialog =>
      try_finally
        (try_catch
           (let* m := get_property args "message" in
            let* e := get_property args "error" in
            reject p (DialogError m e))
           (fun exception => reject p (DialogError unexpected exception)))
        (dialog_close dialog)
  end.

Fixpoint invoke_all (ls : list listener) (args : any) : M unit :=
  match ls with
  | [] => ret tt
  | l :: rest => invoke l args ;;; invoke_all rest args
  end.

Definition EventType_eqb (a b : EventType) : bool :=
  match a, b with
  | DialogMessageReceived, DialogMessageReceived
  | DialogEventReceived, DialogEventReceived => true
  | _, _ => false
  end.

Definition listeners_for (dialog : nat) (ev : EventType)
    (ls : list (nat * EventType * listener)) : list listener :=
  map snd (List.filter (fun r => Nat.eqb (fst (fst r)) dialog && EventType_eqb (snd (fst r)) ev) ls).

(** The host raising event [ev] on [dialog]: the listeners registered for
    it run in registration order. *)
Definition dispatch (dialog : nat) (ev : EventType) (args : any) : M unit :=
  let* w := get in
  invoke_all (listeners_for dialog ev (listeners w)) args.

(** The static [close(message?)]. *)
Definition close (message : any) : M unit :=
  if negb (isAddin env)
  then throw (DialogError (VString "This API cannot be used outside of Office.js") VUndefined)
  else
    let* type :=
      (if loosely_null message then ret VNull
       else if String.eqb (typeof message) "string" then ret (VString "string")
       else if String.eqb (typeof message) "function"
       then throw (DialogError (VString "Invalid message. Canno't pass functions as arguments") VUndefined)
       else ret (VString "object")) in
    try_catch
      (match JSON_stringify (VObject [("type", type); ("value", message)]) with
       | Some text => messageParent (from_option VString VUndefined text)
       | None => unmodelled
       end)
      (fun error => throw (DialogError (VString "Canno't close dialog") error)).

End DialogClass.

(** * Scenarios and statements used by the properties *)

(** A common laptop screen. *)
Definition screen_1366x768 : Screen :=
  {| screenWidth := Fin 1366; screenHeight := Fin 768 |}.

(** The object a successful constructor call leaves in the store. *)
Definition constructed (env : Env) (u : string) (w h : option number) : Dialog :=
  {| url := u; _width := w; _height := h;
     size := _optimizeSize (screen env) w h; _result := None |}.

(** An add-in running in the host on that screen. *)
Definition office_1366x768 : Env :=
  {| isAddin := true; origin := "https://localhost";
     screen := screen_1366x768; messageParent_fault := None |}.

(** The claim of C1, as the specification words it: without width and
    height the constructed size is what the breakpoint selector gives. *)
Definition size_from_breakpoints : Prop :=
  forall (env : Env) (u : option string) (st st' : world) (this : nat) (d : Dialog),
    new_Dialog env u None None st = (Ok this, st') ->
    objects st' !! this = Some d ->
    exists s, _getSize (screen env) None None = Some s /\ size_eqb (size d) s = true.

(** The claim of C9, as the specification words it: a url that does not
    begin with https is refused with an error of class ValidationError. *)
Definition refused_with_ValidationError : Prop :=
  forall (env : Env) (u : option string) (w h : option number) (st : world),
    isAddin env = true ->
    String.prefix "https" (default (origin env) u) = false ->
    exists e st',
      new_Dialog env u w h st = (Throw e, st') /\
      error_class e = Some "ValidationError".

(** [s] between two double quotes, nothing escaped. *)
Definition in_quotes (s : string) : string := dquote +:+ s +:+ dquote.

(** The text [{"type":"string","value":"hello"}]. *)
Definition hello_text : string :=
  "{" +:+ in_quotes "type" +:+ ":" +:+ in_quotes "string" +:+ ","
      +:+ in_quotes "value" +:+ ":" +:+ in_quotes "hello" +:+ "}".

(** The text [{"type":"object","value":{"a":1}}]. *)
Definition object_text : string :=
  "{" +:+ in_quotes "type" +:+ ":" +:+ in_quotes "object" +:+ ","
      +:+ in_quotes "value" +:+ ":{" +:+ in_quotes "a" +:+ ":1}}".

(** The text [{"type":null,"value":null}]. *)
Definition null_value_text : string :=
  "{" +:+ in_quotes "type" +:+ ":null," +:+ in_quotes "value" +:+ ":null}".

(** The text [{"type":null}]. *)
Definition null_text : string := "{" +:+ in_quotes "type" +:+ ":null}".

(** The object literal [{a: 1}]. *)
Definition object_a1 : any := VObject [("a", VNumber (Fin 1))].

(** The error [close] throws for a function. *)
Definition functions_refused : any :=
  DialogError (VString "Invalid message. Canno't pass functions as arguments") VUndefined.

(** The claim of C2, as the specification words it. *)
Definition close_as_specified : Prop :=
  forall (env : Env) (st : world),
    isAddin env = true ->
    posted (snd (close env (VString "hello") st)) = posted st ++ [VString hello_text] /\
    posted (snd (close env object_a1 st)) = posted st ++ [VString object_text] /\
    posted (snd (close env VUndefined st)) = posted st ++ [VString null_value_text] /\
    exists e,
      close env VFunction st = (Throw e, st) /\ error_class e = Some "ValidationError".

(** The call of the host that opening the session [d] makes for the
    promise [p]. *)
Definition display_call (d : Dialog) (p : handle) : DisplayCall :=
  {| call_url := url d; call_width := width_pc (size d);
     call_height := height_pc (size d); call_callback := p |}.

(** The store after the first read of [result] on the object [this]. *)
Definition opened (this : nat) (d : Dialog) (st : world) : world :=
  let p := length (promises st) in
  with_objects (fun os => <[this := set_result d p]> os)
    (with_displayed (fun calls => calls ++ [display_call d p])
       (with_promises (fun ps => ps ++ [Pending]) st)).

(** A client reading [result] [n] times in a row. *)
Fixpoint read_times (n : nat) (this : nat) : M (list (option handle)) :=
  match n with
  | O => ret []
  | S k =>
      let* r := result this in
      let* rs := read_times k this in
      ret (r :: rs)
  end.

(** The store right after [new Dialog("https://example.com")]. *)
Definition one_session : world :=
  with_objects (fun _ => [constructed office_1366x768 "https://example.com" None None])
    empty_world.

(** A failed [AsyncResult] as the host reports it. *)
Definition host_failure : AsyncResult :=
  {| status := Failed;
     error := VObject [("code", VNumber (Fin 12007)); ("message", VString "Dialog blocked")];
     value := 0 |}.

(** A payload that [resolve] delivers as it is: anything but a thenable
    (the host's payloads are strings). *)
Definition deliverable (m : any) : bool :=
  match m with
  | VFunction => false
  | _ => negb (is_thenable m)
  end.

(** A session is open on [dialog] while its promise [p] is pending and the
    message listener registered on [dialog] is its own. *)
Definition open_session (st : world) (p : handle) (dialog : nat) : Prop :=
  promises st !! p = Some Pending /\
  listeners_for dialog DialogMessageReceived (listeners st) = [OnMessage p dialog].

(** [one_session] after the first read of [result] and the host's report
    that dialog 7 is displayed. *)
Definition session_on_dialog_7 : world :=
  snd (display_callback 0 {| status := Succeeded; error := VUndefined; value := 7 |}
         (opened 0 (constructed office_1366x768 "https://example.com" None None)
                 one_session)).

(** ** The parse helper and the host's side of a session *)

Section SafeParse.

(** The runtime's [JSON.parse]: it returns a value ([inl]) or throws
    ([inr]). *)
Variable JSON_parse : string -> any + any.

(** [_safeParse(data)]. *)
Definition _safeParse (data : string) : M any :=
  try_catch
    (fun w =>
       match JSON_parse data with
       | inl result => (Ok result, w)
       | inr e => (Throw e, w)
       end)
    (fun e => ret (VString data)).

End SafeParse.

(** The promise and the host dialog a listener captures. *)
Definition listener_promise (l : listener) : handle :=
  match l with
  | OnMessage p _ | OnEvent p _ => p
  end.

Definition listener_dialog (l : listener) : nat :=
  match l with
  | OnMessage _ dialog | OnEvent _ dialog => dialog
  end.

(** What the host does to a session after [displayDialogAsync]: it reports
    the outcome to the callback of promise [p], or raises an event on one of
    its dialogs. *)
Inductive host_action : Type :=
| Completes (p : handle) (r : AsyncResult)
| Raises (dialog : nat) (ev : EventType) (args : any).

Definition perform (a : host_action) : M unit :=
  match a with
  | Completes p r => display_callback p r
  | Raises dialog ev args => dispatch dialog ev args
  end.

(** The host runs its actions one after the other; an exception leaving a
    callback or a listener ends that action only. *)
Fixpoint perform_all (actions : list host_action) (st : world) : world :=
  match actions with
  | [] => st
  | a :: rest => perform_all rest (snd (perform a st))
  end.

(** The action is not the completion of promise [p]'s own callback. *)
Definition spares (p : handle) (a : host_action) : Prop :=
  match a with
  | Completes q _ => q <> p
  | Raises _ _ _ => True
  end.

(** No listener registered so far captures promise [p]. *)
Definition unlistened (p : handle) (st : world) : Prop :=
  Forall (fun r => listener_promise (snd r) <> p) (listeners st).

(** A request the caller left out or gave as a finite number. *)
Definition missing_or_finite (v : option number) : Prop :=
  match v with
  | None | Some (Fin _) => True
  | Some _ => False
  end.

(** A session whose event listener on [dialog] is its own and whose
    promise [p] is pending. *)
Definition awaiting_event (st : world) (p : handle) (dialog : nat) : Prop :=
  promises st !! p = Some Pending /\
  listeners_for dialog DialogEventReceived (listeners st) = [OnEvent p dialog].

(** The error both entry points throw outside the add-in host. *)
Definition outside_host : any :=
  DialogError (VString "This API cannot be used outside of Office.js") VUndefined.

(** The text [{"type":T,"value":V}] for a quoted tag [T] and a serialised
    value [V]. *)
Definition wire_text (tag value_text : string) : string :=
  "{" +:+ in_quotes "type" +:+ ":" +:+ in_quotes tag +:+ ","
      +:+ in_quotes "value" +:+ ":" +:+ value_text +:+ "}".

(** Between [st] and [st'] nothing changed but, at most, the state of
    promise [p], and that only if it was pending. *)
Definition settles_at_most (p : handle) (st st' : world) : Prop :=
  objects st' = objects st /\ displayed st' = displayed st /\
  listeners st' = listeners st /\ posted st' = posted st /\
  closed st' = closed st /\
  length (promises st') = length (promises st) /\
  (forall q, q <> p -> promises st' !! q = promises st !! q) /\
  (forall s, promises st !! p = Some s -> s <> Pending -> promises st' = promises st).

(** The [try]/[catch] part of a listener. *)
Definition listener_body (l : listener) (args : any) : M unit :=
  match l with
  | OnMessage p _ =>
      try_catch
        (let* m := get_property args "message" in resolve p m)
        (fun exception => reject p (DialogError unexpected exception))
  | OnEvent p _ =>
      try_catch
        (let* m := get_property args "message" in
         let* e := get_property args "error" in
         reject p (DialogError m e))
        (fun exception => reject p (DialogError unexpected exception))
  end.

(** [one_session] after the first read of [result]. *)
Definition one_open_session : world :=
  opened 0 (constructed office_1366x768 "https://example.com" None None) one_session.

(** The host reports dialog 7, a message arrives, then the user closes the
    dialog. *)
Definition busy_host : list host_action :=
  [Completes 0 {| status := Succeeded; error := VUndefined; value := 7 |};
   Raises 7 DialogMessageReceived (VObject [("message", VString "done")]);
   Raises 7 DialogEventReceived (VObject [("error", VNumber (Fin 12006))])].

(** Events and another session's completion, but not the completion of
    promise 0. *)
Definition stray_events : list host_action :=
  [Raises 7 DialogMessageReceived (VObject [("message", VString "done")]);
   Completes 1 {| status := Succeeded; error := VUndefined; value := 7 |};
   Raises 7 DialogEventReceived VUndefined].

(** Two sessions constructed one after the other, neither opened. *)
Definition two_sessions : world :=
  with_objects (fun _ => [constructed office_1366x768 "https://example.com/a" None None;
                          constructed office_1366x768 "https://example.com/b"
                            (Some (Fin 800)) (Some (Fin 600))])
    empty_world.

(** The arguments of a host event saying the dialog was closed. *)
Definition generic_event : any :=
  VObject [("message", VString "closed"); ("error", VNumber (Fin 42))].

(** * Properties *)

(** ** Comparison on finite numbers *)

Lemma Qlt_bool_iff (p q : Q) : Qlt_bool p q = true <-> (p < q)%Q.
Proof.
  unfold Qlt_bool. rewrite negb_true_iff. split.
  - intros E. apply Qnot_le_lt. intros Hle.
    apply Qle_bool_iff in Hle. congruence.
  - intros Hlt. destruct (Qle_bool q p) eqn:E; [|reflexivity].
    apply Qle_bool_iff in E. lra.
Qed.

Lemma Qlt_bool_false (p q : Q) : Qlt_bool p q = false <-> (q <= p)%Q.
Proof.
  unfold Qlt_bool. rewrite negb_false_iff. apply Qle_bool_iff.
Qed.

Lemma Qeq_bool_false_pos (q : Q) : (0 < q)%Q -> Qeq_bool q 0 = false.
Proof.
  intros Hq. destruct (Qeq_bool q 0) eqn:E; [|reflexivity].
  apply Qeq_bool_iff in E. lra.
Qed.

(** [undefined] never compares below anything. *)
Lemma undefined_not_below (n : number) : num_ltb (to_number None) n = false.
Proof. reflexivity. Qed.

(** The comparison can only hold for a requested value that is there. *)
Lemma below_is_supplied (v : option number) (n : number) :
  num_ltb (to_number v) n = true -> v = Some (to_number v).
Proof. destruct v as [x|]; [reflexivity | discriminate]. Qed.

(** ** The capping law *)

Lemma _maxSize_below (v : option number) (max : number) :
  num_ltb (to_number v) (num_sub max (Fin 30)) = true ->
  Some (_maxSize v max) = v.
Proof.
  intros Hlt. unfold _maxSize, margin. rewrite Hlt.
  symmetry. exact (below_is_supplied _ _ Hlt).
Qed.

Lemma _maxSize_otherwise (v : option number) (max : number) :
  num_ltb (to_number v) (num_sub max (Fin 30)) = false ->
  _maxSize v max = num_sub max (Fin 30).
Proof. intros Hge. unfold _maxSize, margin. now rewrite Hge. Qed.

(** On finite numbers the law reads with the order of the rationals. *)
Lemma _maxSize_finite (a m : Q) :
  ((a < m - 30)%Q -> _maxSize (Some (Fin a)) (Fin m) = Fin a) /\
  ((m - 30 <= a)%Q -> _maxSize (Some (Fin a)) (Fin m) = Fin (m - 30)).
Proof.
  unfold _maxSize, margin; simpl. split; intros H.
  - apply Qlt_bool_iff in H. now rewrite H.
  - apply Qlt_bool_false in H. now rewrite H.
Qed.

(** C6: the optimised pixel width is the requested width when that is
    strictly below [screenWidth - 30], and [screenWidth - 30] in every other
    case; the height obeys the same law against [screenHeight].  The margin
    is the constant 30. *)
Theorem optimizeSize_caps_to_screen (scr : Screen) (w h : option number) :
  let s := _optimizeSize scr w h in
  (num_ltb (to_number w) (num_sub (screenWidth scr) (Fin 30)) = true ->
     Some (width s) = w) /\
  (num_ltb (to_number w) (num_sub (screenWidth scr) (Fin 30)) = false ->
     width s = num_sub (screenWidth scr) (Fin 30)) /\
  (num_ltb (to_number h) (num_sub (screenHeight scr) (Fin 30)) = true ->
     Some (height s) = h) /\
  (num_ltb (to_number h) (num_sub (screenHeight scr) (Fin 30)) = false ->
     height s = num_sub (screenHeight scr) (Fin 30)).
Proof.
  simpl. repeat split; intros H.
  - now apply _maxSize_below.
  - now apply _maxSize_otherwise.
  - now apply _maxSize_below.
  - now apply _maxSize_otherwise.
Qed.

Lemma optimizeSize_caps_to_screen_witness :
  width (_optimizeSize screen_1366x768 (Some (Fin 800)) (Some (Fin 2000))) = Fin 800 /\
  height (_optimizeSize screen_1366x768 (Some (Fin 800)) (Some (Fin 2000))) = Fin 738.
Proof.
  pose proof (optimizeSize_caps_to_screen screen_1366x768
                (Some (Fin 800)) (Some (Fin 2000))) as (Hw & _ & _ & Hh).
  split.
  - specialize (Hw eq_refl). now inversion Hw.
  - exact (Hh eq_refl).
Defined.

(** ** Percentages *)

Lemma _percentage_finite (v m : Q) :
  (0 < m)%Q -> _percentage (Fin v) (Fin m) = Fin (v * 100 / m).
Proof.
  intros Hm. unfold _percentage; simpl. now rewrite Qeq_bool_false_pos.
Qed.





(** ** The breakpoint selector *)

(** C8: when no explicit size is requested, [_getSize] takes base size
    640x480 for a screen width up to 640, 1024x768 up to 1366, 1600x900 up
    to 1920, each handed to the optimiser, and returns no size at all for a
    screen wider than 1920. *)
Theorem getSize_breakpoints (scr : Screen) (w h : option number) :
  truthy w && truthy h = false ->
  (num_leb (screenWidth scr) (Fin 640) = true ->
     _getSize scr w h = Some (_optimizeSize scr (Some (Fin 640)) (Some (Fin 480)))) /\
  (num_leb (screenWidth scr) (Fin 640) = false ->
   num_leb (screenWidth scr) (Fin 1366) = true ->
     _getSize scr w h = Some (_optimizeSize scr (Some (Fin 1024)) (Some (Fin 768)))) /\
  (num_leb (screenWidth scr) (Fin 1366) = false ->
   num_leb (screenWidth scr) (Fin 1920) = true ->
     _getSize scr w h = Some (_optimizeSize scr (Some (Fin 1600)) (Some (Fin 900)))) /\
  (num_ltb (Fin 1920) (screenWidth scr) = true ->
     _getSize scr w h = None).
Proof.
  intros Hnone. unfold _getSize. rewrite Hnone.
  repeat split.
  - intros ->. reflexivity.
  - intros -> ->. reflexivity.
  - intros H1366 H1920.
    assert (num_leb (screenWidth scr) (Fin 640) = false) as ->.
    { destruct (screenWidth scr) as [q | | |]; try reflexivity; try discriminate.
      simpl in *. destruct (Qle_bool q 640) eqn:E; [|reflexivity].
      apply Qle_bool_iff in E.
      assert (q <= 1366)%Q as Hle by lra.
      apply Qle_bool_iff in Hle. congruence. }
    rewrite H1366, H1920. reflexivity.
  - intros Habove.
    destruct (screenWidth scr) as [q | | |]; try reflexivity; try discriminate.
    simpl in *. apply Qlt_bool_iff in Habove.
    assert (forall c, (c <= 1920)%Q -> Qle_bool q c = false) as Hno.
    { intros c Hc. destruct (Qle_bool q c) eqn:E; [|reflexivity].
      apply Qle_bool_iff in E. lra. }
    rewrite !Hno by (unfold Qle; simpl; lia). reflexivity.
Qed.

Lemma getSize_breakpoints_witness :
  _getSize screen_1366x768 None None
    = Some (_optimizeSize screen_1366x768 (Some (Fin 1024)) (Some (Fin 768))) /\
  _getSize {| screenWidth := Fin 2560; screenHeight := Fin 1440 |} None None = None.
Proof.
  split.
  - exact (proj1 (proj2 (getSize_breakpoints screen_1366x768 None None eq_refl))
             eq_refl eq_refl).
  - exact (proj2 (proj2 (proj2
             (getSize_breakpoints {| screenWidth := Fin 2560; screenHeight := Fin 1440 |}
                None None eq_refl))) eq_refl).
Defined.

(** The table at its three corner widths, and what the selector returns
    once the optimiser has capped the base size. *)
Example getSize_at_640 :
  _getSize {| screenWidth := Fin 640; screenHeight := Fin 480 |} None None
    = Some {| width_pc := Fin (61000 # 640); height_pc := Fin (45000 # 480);
              width := Fin 610; height := Fin 450 |}.
Proof. reflexivity. Qed.

Example getSize_at_1920 :
  _getSize {| screenWidth := Fin 1920; screenHeight := Fin 1080 |} None None
    = Some {| width_pc := Fin (160000 # 1920); height_pc := Fin (90000 # 1080);
              width := Fin 1600; height := Fin 900 |}.
Proof. reflexivity. Qed.

(** ** Construction *)

Lemma new_Dialog_ok (env : Env) (u : option string) (w h : option number) (st : world) :
  isAddin env = true ->
  String.prefix "https" (default (origin env) u) = true ->
  new_Dialog env u w h st
    = (Ok (length (objects st)),
       with_objects (fun os => os ++ [constructed env (default (origin env) u) w h]) st).
Proof.
  intros Haddin Hhttps. unfold new_Dialog. rewrite Haddin, Hhttps. reflexivity.
Qed.

Lemma new_Dialog_inv (env : Env) (u : option string) (w h : option number)
    (st st' : world) (this : nat) :
  new_Dialog env u w h st = (Ok this, st') ->
  isAddin env = true /\
  String.prefix "https" (default (origin env) u) = true /\
  objects st' !! this = Some (constructed env (default (origin env) u) w h).
Proof.
  unfold new_Dialog.
  destruct (isAddin env); [|discriminate].
  destruct (String.prefix "https" (default (origin env) u)); [|discriminate].
  cbn. intros [= <- <-]. cbn. repeat split.
  now apply list_lookup_middle.
Qed.

Lemma new_Dialog_not_https (env : Env) (u : option string) (w h : option number) (st : world) :
  isAddin env = true ->
  String.prefix "https" (default (origin env) u) = false ->
  new_Dialog env u w h st
    = (Throw (DialogError (VString "URL has to be loaded over HTTPS.") VUndefined), st).
Proof.
  intros Haddin Hhttps. unfold new_Dialog. rewrite Haddin, Hhttps. reflexivity.
Qed.

(** C10: the constructor hands its [width] and [height] to the optimiser as
    they are; for one left [undefined] the comparison
    [value < screenDimension - 30] is false and the pixel size of that
    dimension is [screenDimension - 30].  The size never comes from the
    breakpoint selector. *)
Theorem constructor_passes_undefined_through
    (env : Env) (u : option string) (w h : option number)
    (st st' : world) (this : nat) :
  new_Dialog env u w h st = (Ok this, st') ->
  exists d,
    objects st' !! this = Some d /\
    size d = _optimizeSize (screen env) w h /\
    (w = None ->
       num_ltb (to_number w) (num_sub (screenWidth (screen env)) (Fin 30)) = false /\
       width (size d) = num_sub (screenWidth (screen env)) (Fin 30)) /\
    (h = None ->
       num_ltb (to_number h) (num_sub (screenHeight (screen env)) (Fin 30)) = false /\
       height (size d) = num_sub (screenHeight (screen env)) (Fin 30)).
Proof.
  intros Hnew. apply new_Dialog_inv in Hnew as (_ & _ & Hd).
  eexists. split; [exact Hd|]. cbn. repeat split; subst; reflexivity.
Qed.

Lemma constructor_passes_undefined_through_witness :
  exists d,
    [constructed office_1366x768 "https://example.com" None (Some (Fin 600))] !! 0%nat
      = Some d /\
    size d = _optimizeSize screen_1366x768 None (Some (Fin 600)) /\
    (@None number = None ->
       num_ltb (to_number None) (num_sub (Fin 1366) (Fin 30)) = false /\
       width (size d) = num_sub (Fin 1366) (Fin 30)) /\
    (Some (Fin 600) = None ->
       num_ltb (to_number (Some (Fin 600))) (num_sub (Fin 768) (Fin 30)) = false /\
       height (size d) = num_sub (Fin 768) (Fin 30)).
Proof.
  exact (constructor_passes_undefined_through office_1366x768
           (Some "https://example.com") None (Some (Fin 600))
           empty_world _ 0%nat eq_refl).
Defined.

(** C1, refuted: on a 1366x768 screen the constructor gives 1336x738, the
    breakpoint default 1024x768 would give 1024x738. *)
Lemma size_from_breakpoints_fails : ~ size_from_breakpoints.
Proof.
  intros Hclaim.
  destruct (Hclaim office_1366x768 (Some "https://example.com") empty_world _ 0%nat
              (constructed office_1366x768 "https://example.com" None None)
              eq_refl eq_refl) as (s & Hs & Heq).
  cbv in Hs. injection Hs as <-. discriminate Heq.
Qed.

(** C1, amended: without width and height the constructed size is the
    optimiser applied to the two [undefined] values, that is the screen less
    the margin in both dimensions with the matching percentages. *)
Theorem constructor_default_size
    (env : Env) (u : option string) (st st' : world) (this : nat) :
  new_Dialog env u None None st = (Ok this, st') ->
  exists d,
    objects st' !! this = Some d /\
    size d = _optimizeSize (screen env) None None /\
    width (size d) = num_sub (screenWidth (screen env)) (Fin 30) /\
    height (size d) = num_sub (screenHeight (screen env)) (Fin 30) /\
    width_pc (size d)
      = _percentage (num_sub (screenWidth (screen env)) (Fin 30)) (screenWidth (screen env)) /\
    height_pc (size d)
      = _percentage (num_sub (screenHeight (screen env)) (Fin 30)) (screenHeight (screen env)).
Proof.
  intros Hnew. apply new_Dialog_inv in Hnew as (_ & _ & Hd).
  eexists. split; [exact Hd|]. cbn. repeat split.
Qed.

Lemma constructor_default_size_witness :
  exists d,
    [constructed office_1366x768 "https://example.com" None None] !! 0%nat = Some d /\
    size d = _optimizeSize screen_1366x768 None None /\
    width (size d) = num_sub (Fin 1366) (Fin 30) /\
    height (size d) = num_sub (Fin 768) (Fin 30) /\
    width_pc (size d) = _percentage (num_sub (Fin 1366) (Fin 30)) (Fin 1366) /\
    height_pc (size d) = _percentage (num_sub (Fin 768) (Fin 30)) (Fin 768).
Proof.
  exact (constructor_default_size office_1366x768 (Some "https://example.com")
           empty_world _ 0%nat eq_refl).
Defined.

(** C9, refuted: the error thrown for http://example.com is a DialogError. *)
Lemma refused_with_ValidationError_fails : ~ refused_with_ValidationError.
Proof.
  intros Hclaim.
  destruct (Hclaim office_1366x768 (Some "http://example.com") None None empty_world
              eq_refl eq_refl) as (e & st' & Hthrow & Hclass).
  cbv in Hthrow. injection Hthrow as <- _. discriminate Hclass.
Qed.

(** C9, amended: inside the add-in host, a url that does not begin with
    https is refused with a DialogError and nothing is constructed; with
    https://example.com the construction succeeds. *)
Theorem constructor_checks_https
    (env : Env) (u : option string) (w h : option number) (st : world) :
  isAddin env = true ->
  (String.prefix "https" (default (origin env) u) = false ->
     exists e,
       new_Dialog env u w h st = (Throw e, st) /\
       e = DialogError (VString "URL has to be loaded over HTTPS.") VUndefined /\
       error_class e = Some "DialogError") /\
  (exists this st',
     new_Dialog env (Some "https://example.com") w h st = (Ok this, st') /\
     objects st' !! this = Some (constructed env "https://example.com" w h)).
Proof.
  intros Haddin. split.
  - intros Hhttps. eexists. split; [now apply new_Dialog_not_https|].
    split; reflexivity.
  - eexists _, _. split; [now apply new_Dialog_ok|].
    cbn. now apply list_lookup_middle.
Qed.

Lemma constructor_checks_https_witness :
  new_Dialog office_1366x768 (Some "http://example.com") None None empty_world
    = (Throw (DialogError (VString "URL has to be loaded over HTTPS.") VUndefined),
       empty_world) /\
  exists this st',
    new_Dialog office_1366x768 (Some "https://example.com") None None empty_world
      = (Ok this, st') /\
    objects st' !! this
      = Some (constructed office_1366x768 "https://example.com" None None).
Proof.
  destruct (constructor_checks_https office_1366x768 (Some "http://example.com")
              None None empty_world eq_refl) as [Hbad Hgood].
  split.
  - destruct (Hbad eq_refl) as (e & Hthrow & -> & _). exact Hthrow.
  - exact Hgood.
Defined.

(** ** The static close/send operation *)

(** C2, refuted: without an argument the text handed to the host is
    [{"type":null}], the [value] member being dropped by the serialiser. *)
Lemma close_as_specified_fails : ~ close_as_specified.
Proof.
  intros Hclaim.
  destruct (Hclaim office_1366x768 empty_world eq_refl) as (_ & _ & Hnone & _).
  vm_compute in Hnone. discriminate Hnone.
Qed.

(** The second deviation: the error for a function is a DialogError. *)
Example close_function_error_class :
  exists e,
    close office_1366x768 VFunction empty_world = (Throw e, empty_world) /\
    error_class e = Some "DialogError".
Proof. eexists. split; reflexivity. Qed.

(** C2, amended: inside the add-in host, [close] hands the host exactly
    [{"type":"string","value":"hello"}] for "hello",
    [{"type":"object","value":{"a":1}}] for [{a:1}], [{"type":null}] without
    an argument and [{"type":null,"value":null}] for [null]; for a function
    it throws a DialogError and the host is not called. *)
Theorem close_serializes (env : Env) (st : world) :
  isAddin env = true ->
  posted (snd (close env (VString "hello") st)) = posted st ++ [VString hello_text] /\
  posted (snd (close env object_a1 st)) = posted st ++ [VString object_text] /\
  posted (snd (close env VUndefined st)) = posted st ++ [VString null_text] /\
  posted (snd (close env VNull st)) = posted st ++ [VString null_value_text] /\
  close env VFunction st = (Throw functions_refused, st) /\
  error_class functions_refused = Some "DialogError".
Proof.
  intros Haddin.
  assert (forall text, posted (snd (try_catch (messageParent env text)
            (fun error => throw (DialogError (VString "Canno't close dialog") error)) st))
          = posted st ++ [text]) as Hpost.
  { intros text. unfold try_catch, messageParent, bind, modify, throw, ret.
    destruct (messageParent_fault env); reflexivity. }
  unfold close. rewrite Haddin. cbn [negb].
  repeat split; try apply Hpost.
Qed.

Lemma close_serializes_witness :
  posted (snd (close office_1366x768 (VString "hello") empty_world))
    = [VString hello_text] /\
  posted (snd (close office_1366x768 object_a1 empty_world)) = [VString object_text] /\
  posted (snd (close office_1366x768 VUndefined empty_world)) = [VString null_text] /\
  posted (snd (close office_1366x768 VNull empty_world)) = [VString null_value_text] /\
  close office_1366x768 VFunction empty_world = (Throw functions_refused, empty_world) /\
  error_class functions_refused = Some "DialogError".
Proof.
  exact (close_serializes office_1366x768 empty_world eq_refl).
Defined.

(** ** The memoised result *)

Lemma result_first (this : nat) (d : Dialog) (st : world) :
  objects st !! this = Some d ->
  _result d = None ->
  result this st = (Ok (Some (length (promises st))), opened this d st).
Proof.
  intros Hd Hfresh.
  assert (this < length (objects st))%nat as Hlt by (eapply lookup_lt_Some; eauto).
  unfold result, bind, deref. rewrite Hd, Hfresh.
  unfold _open, new_Promise, bind, get, modify, try_catch, deref,
    displayDialogAsync, assign_result, ret. cbn.
  rewrite Hd. cbn. rewrite Hd. cbn.
  rewrite list_lookup_insert_eq by exact Hlt.
  unfold opened, display_call, with_objects, with_displayed, with_promises. cbn.
  rewrite Hd. reflexivity.
Qed.

Lemma result_again (this : nat) (d : Dialog) (p : handle) (st : world) :
  objects st !! this = Some d ->
  _result d = Some p ->
  result this st = (Ok (Some p), st).
Proof.
  intros Hd Hp. unfold result, bind, deref. rewrite Hd, Hp.
  cbn. rewrite Hd, Hp. reflexivity.
Qed.

Lemma opened_object (this : nat) (d : Dialog) (st : world) :
  objects st !! this = Some d ->
  objects (opened this d st) !! this = Some (set_result d (length (promises st))).
Proof.
  intros Hd. cbn. apply list_lookup_insert_eq. eapply lookup_lt_Some; eauto.
Qed.

Lemma read_times_again (n : nat) (this : nat) (d : Dialog) (p : handle) (st : world) :
  objects st !! this = Some d ->
  _result d = Some p ->
  read_times n this st = (Ok (replicate n (Some p)), st).
Proof.
  intros Hd Hp. induction n as [|n IH]; [reflexivity|].
  cbn [read_times]. unfold bind at 1.
  rewrite (result_again _ _ _ _ Hd Hp).
  unfold bind at 1. rewrite IH. reflexivity.
Qed.

(** C3: however often [result] is read on a session, every read returns the
    promise created by the first one, and the host's display primitive is
    called exactly once. *)
Theorem result_is_memoised (n : nat) (this : nat) (d : Dialog) (st : world) :
  objects st !! this = Some d ->
  _result d = None ->
  exists st',
    read_times (S n) this st = (Ok (replicate (S n) (Some (length (promises st)))), st') /\
    displayed st' = displayed st ++ [display_call d (length (promises st))] /\
    length (displayed st') = S (length (displayed st)).
Proof.
  intros Hd Hfresh. exists (opened this d st).
  split; [|split].
  - cbn [read_times]. unfold bind at 1.
    rewrite (result_first _ _ _ Hd Hfresh).
    unfold bind at 1.
    rewrite (read_times_again n this _ (length (promises st)) _
               (opened_object _ _ _ Hd) eq_refl).
    reflexivity.
  - reflexivity.
  - cbn. rewrite length_app. cbn. lia.
Qed.

Lemma result_is_memoised_witness :
  exists st',
    read_times 3 0 one_session = (Ok [Some 0%nat; Some 0%nat; Some 0%nat], st') /\
    displayed st'
      = [display_call (constructed office_1366x768 "https://example.com" None None) 0] /\
    length (displayed st') = 1%nat.
Proof.
  exact (result_is_memoised 2 0 _ one_session eq_refl eq_refl).
Defined.

(** ** The callback and the listeners *)

(** C5: when the host reports failure, the callback throws a DialogError
    built from the reported message; the store is left as it was, so the
    pending promise is not settled. *)
Theorem failed_display_throws (p : handle) (r : AsyncResult) (m : any) (st : world) :
  status r = Failed ->
  read_property (error r) "message" = Ok m ->
  promises st !! p = Some Pending ->
  exists e st',
    display_callback p r st = (Throw e, st') /\
    e = DialogError m VUndefined /\
    error_class e = Some "DialogError" /\
    st' = st /\
    promises st' !! p = Some Pending.
Proof.
  intros Hfailed Hmsg Hpending.
  exists (DialogError m VUndefined), st.
  unfold display_callback, bind, get_property, throw.
  rewrite Hfailed, Hmsg. repeat split. exact Hpending.
Qed.

Lemma failed_display_throws_witness :
  exists e st',
    display_callback 0 host_failure (opened 0 (constructed office_1366x768
                                         "https://example.com" None None) one_session)
      = (Throw e, st') /\
    e = DialogError (VString "Dialog blocked") VUndefined /\
    error_class e = Some "DialogError" /\
    st' = opened 0 (constructed office_1366x768 "https://example.com" None None) one_session /\
    promises st' !! 0%nat = Some Pending.
Proof.
  exact (failed_display_throws 0 host_failure (VString "Dialog blocked")
           (opened 0 (constructed office_1366x768 "https://example.com" None None)
                   one_session)
           eq_refl eq_refl eq_refl).
Defined.

Lemma resolve_delivers (p : handle) (m : any) :
  deliverable m = true -> resolve p m = settle p (Fulfilled m).
Proof.
  destruct m; try reflexivity; try discriminate.
  cbn. intros Hdata. apply negb_true_iff in Hdata.
  unfold resolve. now rewrite Hdata.
Qed.

Lemma settle_pending (p : handle) (s : promise_state) (st : world) :
  promises st !! p = Some Pending ->
  settle p s st = (Ok tt, with_promises (fun ps => <[p := s]> ps) st).
Proof.
  intros Hpending. unfold settle, modify, with_promises. now rewrite Hpending.
Qed.

Lemma settled_state (p : handle) (s : promise_state) (st : world) :
  promises st !! p = Some Pending ->
  promises (with_promises (fun ps => <[p := s]> ps) st) !! p = Some s.
Proof.
  intros Hpending. cbn. apply list_lookup_insert_eq. eapply lookup_lt_Some; eauto.
Qed.

(** The message listener on a pending promise, payload readable. *)
Lemma invoke_message_resolves (p : handle) (dialog : nat) (args m : any) (st : world) :
  promises st !! p = Some Pending ->
  read_property args "message" = Ok m ->
  deliverable m = true ->
  invoke (OnMessage p dialog) args st
    = (Ok tt, with_closed (fun cs => cs ++ [dialog])
                (with_promises (fun ps => <[p := Fulfilled m]> ps) st)).
Proof.
  intros Hpending Hmsg Hdata.
  unfold invoke, try_finally, try_catch, bind, get_property.
  rewrite Hmsg, (resolve_delivers _ _ Hdata), (settle_pending _ _ _ Hpending).
  reflexivity.
Qed.

(** The message listener on a pending promise, reading the payload throws. *)
Lemma invoke_message_rejects (p : handle) (dialog : nat) (args exception : any) (st : world) :
  promises st !! p = Some Pending ->
  read_property args "message" = Throw exception ->
  invoke (OnMessage p dialog) args st
    = (Ok tt, with_closed (fun cs => cs ++ [dialog])
                (with_promises
                   (fun ps => <[p := Rejected (DialogError unexpected exception)]> ps) st)).
Proof.
  intros Hpending Hmsg.
  unfold invoke, try_finally, try_catch, bind, get_property, reject.
  rewrite Hmsg, (settle_pending _ _ _ Hpending).
  reflexivity.
Qed.

(** C4: on an open session a message-received event with payload [m]
    fulfils the promise with [m]; the promise is rejected, with a
    DialogError wrapping the exception, only when delivering throws; either
    way the host dialog's [close] is called exactly once. *)
Theorem message_received_settles_and_closes
    (st : world) (p : handle) (dialog : nat) (args : any) :
  open_session st p dialog ->
  (forall m,
     read_property args "message" = Ok m -> deliverable m = true ->
     exists st',
       dispatch dialog DialogMessageReceived args st = (Ok tt, st') /\
       promises st' !! p = Some (Fulfilled m) /\
       closed st' = closed st ++ [dialog]) /\
  (forall exception,
     read_property args "message" = Throw exception ->
     exists st',
       dispatch dialog DialogMessageReceived args st = (Ok tt, st') /\
       promises st' !! p = Some (Rejected (DialogError unexpected exception)) /\
       closed st' = closed st ++ [dialog]).
Proof.
  intros [Hpending Hlistener]. split.
  - intros m Hmsg Hdata. eexists. split; [|split].
    + unfold dispatch, bind, get. rewrite Hlistener. cbn [invoke_all].
      unfold bind. rewrite (invoke_message_resolves _ _ _ _ _ Hpending Hmsg Hdata).
      reflexivity.
    + now apply settled_state.
    + reflexivity.
  - intros exception Hmsg. eexists. split; [|split].
    + unfold dispatch, bind, get. rewrite Hlistener. cbn [invoke_all].
      unfold bind. rewrite (invoke_message_rejects _ _ _ _ _ Hpending Hmsg).
      reflexivity.
    + now apply settled_state.
    + reflexivity.
Qed.

Lemma message_received_settles_and_closes_witness :
  (exists st',
     dispatch 7 DialogMessageReceived (VObject [("message", VString "done")])
       session_on_dialog_7 = (Ok tt, st') /\
     promises st' !! 0%nat = Some (Fulfilled (VString "done")) /\
     closed st' = [7%nat]) /\
  (exists st',
     dispatch 7 DialogMessageReceived VUndefined session_on_dialog_7 = (Ok tt, st') /\
     promises st' !! 0%nat = Some (Rejected (DialogError unexpected TypeError)) /\
     closed st' = [7%nat]).
Proof.
  split.
  - exact (proj1 (message_received_settles_and_closes session_on_dialog_7 0 7
                    (VObject [("message", VString "done")]) (conj eq_refl eq_refl))
             (VString "done") eq_refl eq_refl).
  - exact (proj2 (message_received_settles_and_closes session_on_dialog_7 0 7
                    VUndefined (conj eq_refl eq_refl))
             TypeError eq_refl).
Defined.

(** X25: reading [result] on a fresh session and the host's report of
    success open the session, whatever the store held before, provided the
    host hands out a dialog nobody listens to yet: the promise is still
    pending, the message listener on the dialog is the session's own, and
    [close] has not been called. *)
Lemma session_opens (this : nat) (d : Dialog) (dialog : nat) (e : any) (st : world) :
  objects st !! this = Some d ->
  _result d = None ->
  listeners_for dialog DialogMessageReceived (listeners st) = [] ->
  exists st1 st2,
    result this st = (Ok (Some (length (promises st))), st1) /\
    display_callback (length (promises st))
      {| status := Succeeded; error := e; value := dialog |} st1 = (Ok tt, st2) /\
    open_session st2 (length (promises st)) dialog /\
    closed st2 = closed st.
Proof.
  intros Hd Hfresh Hnone.
  eexists _, _. split; [exact (result_first _ _ _ Hd Hfresh)|].
  split; [unfold display_callback, bind, addEventHandler, modify; cbn; reflexivity|].
  split; [split|reflexivity].
  - cbn. now apply list_lookup_middle.
  - cbn. unfold listeners_for in *.
    rewrite !List.filter_app, !map_app, Hnone. cbn.
    rewrite Nat.eqb_refl. reflexivity.
Qed.

(** * Further properties of the code *)

(** ** The optimiser at its edges *)

Lemma num_ltb_irrefl (c : number) : num_ltb c c = false.
Proof.
  destruct c as [q | | |]; try reflexivity.
  simpl. apply Qlt_bool_false. apply Qle_refl.
Qed.

(** X1: on finite numbers the capped size is the smaller of the request and
    the screen dimension less 30: it exceeds neither and is one of them. *)
Theorem maxSize_is_minimum (a m : Q) :
  exists c,
    _maxSize (Some (Fin a)) (Fin m) = Fin c /\
    (c <= a)%Q /\ (c <= m - 30)%Q /\ (c = a \/ c = (m - 30)%Q).
Proof.
  destruct (Qlt_le_dec a (m - 30)) as [Hlt | Hge].
  - exists a. rewrite (proj1 (_maxSize_finite a m) Hlt).
    repeat split; try lra. now left.
  - exists (m - 30)%Q. rewrite (proj2 (_maxSize_finite a m) Hge).
    repeat split; try lra. now right.
Qed.

(** X2: optimising the pixel size of an optimised size gives the same size
    again, whatever the request and the screen were. *)
Theorem optimizeSize_idempotent (scr : Screen) (w h : option number) :
  _optimizeSize scr (Some (width (_optimizeSize scr w h)))
                    (Some (height (_optimizeSize scr w h)))
    = _optimizeSize scr w h.
Proof.
  assert (forall v m, _maxSize (Some (_maxSize v m)) m = _maxSize v m) as Hcap.
  { intros v m. unfold _maxSize at 2 3.
    destruct (num_ltb (to_number v) (num_sub m margin)) eqn:E.
    - unfold _maxSize. cbn [to_number]. now rewrite E.
    - unfold _maxSize. cbn [to_number]. now rewrite num_ltb_irrefl. }
  unfold _optimizeSize. cbn [width height]. now rewrite !Hcap.
Qed.

(** X3: a larger request never gets a smaller capped size. *)
Theorem maxSize_monotone (a b m : Q) :
  (a <= b)%Q ->
  exists ca cb,
    _maxSize (Some (Fin a)) (Fin m) = Fin ca /\
    _maxSize (Some (Fin b)) (Fin m) = Fin cb /\
    (ca <= cb)%Q.
Proof.
  intros Hab.
  destruct (Qlt_le_dec a (m - 30)) as [Ha | Ha];
    destruct (Qlt_le_dec b (m - 30)) as [Hb | Hb].
  - exists a, b. rewrite (proj1 (_maxSize_finite a m) Ha),
      (proj1 (_maxSize_finite b m) Hb). repeat split; lra.
  - exists a, (m - 30)%Q. rewrite (proj1 (_maxSize_finite a m) Ha),
      (proj2 (_maxSize_finite b m) Hb). repeat split; lra.
  - exists (m - 30)%Q, b. rewrite (proj2 (_maxSize_finite a m) Ha),
      (proj1 (_maxSize_finite b m) Hb). repeat split; lra.
  - exists (m - 30)%Q, (m - 30)%Q. rewrite (proj2 (_maxSize_finite a m) Ha),
      (proj2 (_maxSize_finite b m) Hb). repeat split; lra.
Qed.

Lemma maxSize_monotone_witness :
  exists ca cb,
    _maxSize (Some (Fin 800)) (Fin 1366) = Fin ca /\
    _maxSize (Some (Fin 2000)) (Fin 1366) = Fin cb /\
    (ca <= cb)%Q.
Proof.
  apply (maxSize_monotone 800 2000 1366). unfold Qle; simpl; lia.
Defined.

(** X4: there is no lower bound: on a screen larger than 30 a request that
    is zero or negative is kept as it is, and its percentage is zero or
    negative as well. *)
Theorem nonpositive_request_is_kept (a b sw sh : Q) :
  (a <= 0)%Q -> (b <= 0)%Q -> (30 < sw)%Q -> (30 < sh)%Q ->
  let s := _optimizeSize {| screenWidth := Fin sw; screenHeight := Fin sh |}
                         (Some (Fin a)) (Some (Fin b)) in
  width s = Fin a /\ height s = Fin b /\
  width_pc s = Fin (a * 100 / sw) /\ height_pc s = Fin (b * 100 / sh) /\
  (a * 100 / sw <= 0)%Q /\ (b * 100 / sh <= 0)%Q.
Proof.
  intros Ha Hb Hsw Hsh s. subst s. unfold _optimizeSize; cbn.
  rewrite (proj1 (_maxSize_finite a sw)) by lra.
  rewrite (proj1 (_maxSize_finite b sh)) by lra.
  rewrite !_percentage_finite by lra.
  repeat split; apply Qle_shift_div_r; lra.
Qed.

Lemma nonpositive_request_is_kept_witness :
  width (_optimizeSize screen_1366x768 (Some (Fin (-5))) (Some (Fin 0))) = Fin (-5) /\
  height (_optimizeSize screen_1366x768 (Some (Fin (-5))) (Some (Fin 0))) = Fin 0 /\
  width_pc (_optimizeSize screen_1366x768 (Some (Fin (-5))) (Some (Fin 0)))
    = Fin (-5 * 100 / 1366) /\
  height_pc (_optimizeSize screen_1366x768 (Some (Fin (-5))) (Some (Fin 0)))
    = Fin (0 * 100 / 768) /\
  (-5 * 100 / 1366 <= 0)%Q /\ (0 * 100 / 768 <= 0)%Q.
Proof.
  apply (nonpositive_request_is_kept (-5) 0 1366 768);
    unfold Qle, Qlt; simpl; lia.
Defined.

(** X5: on a screen dimension of 30 or less, every request that is left
    out or positive gets the size [dimension - 30], which is not positive. *)
Theorem tiny_screen_gives_nonpositive_size (v : option number) (m : Q) :
  (m <= 30)%Q ->
  (v = None \/ exists a, v = Some (Fin a) /\ (0 < a)%Q) ->
  _maxSize v (Fin m) = Fin (m - 30) /\ (m - 30 <= 0)%Q.
Proof.
  intros Hm [-> | (a & -> & Ha)].
  - split; [reflexivity | lra].
  - split; [|lra]. apply (proj2 (_maxSize_finite a m)). lra.
Qed.

Lemma tiny_screen_gives_nonpositive_size_witness :
  _maxSize (Some (Fin 640)) (Fin 20) = Fin (20 - 30) /\ (20 - 30 <= 0)%Q.
Proof.
  apply (tiny_screen_gives_nonpositive_size (Some (Fin 640)) 20).
  - unfold Qle; simpl; lia.
  - right. exists 640%Q. split; [reflexivity | reflexivity].
Defined.

(** X6: on a screen dimension of zero the percentage is minus infinity for
    every request that is left out or finite: the division by the screen
    dimension is not guarded. *)
Theorem zero_screen_percentage (v : option number) :
  missing_or_finite v ->
  _percentage (_maxSize v (Fin 0)) (Fin 0) = NInf.
Proof.
  intros Hv.
  assert (forall x, (x < 0)%Q -> _percentage (Fin x) (Fin 0) = NInf) as Hneg.
  { intros x Hx. unfold _percentage; simpl.
    destruct (Qeq_bool (x * 100) 0) eqn:E.
    - apply Qeq_bool_iff in E. lra.
    - assert (Qlt_bool 0 (x * 100) = false) as ->; [|reflexivity].
      apply Qlt_bool_false. lra. }
  destruct v as [[a | | |]|]; try contradiction.
  - destruct (Qlt_le_dec a (0 - 30)) as [Hlt | Hge].
    + rewrite (proj1 (_maxSize_finite a 0) Hlt). apply Hneg. lra.
    + rewrite (proj2 (_maxSize_finite a 0) Hge). apply Hneg. lra.
  - apply Hneg. lra.
Qed.

Lemma zero_screen_percentage_witness :
  _percentage (_maxSize (Some (Fin 800)) (Fin 0)) (Fin 0) = NInf.
Proof. exact (zero_screen_percentage (Some (Fin 800)) I). Defined.



(** ** The breakpoint selector, further *)

Lemma num_leb_widen (x : number) (a b : Q) :
  (a <= b)%Q -> num_leb x (Fin a) = true -> num_leb x (Fin b) = true.
Proof.
  intros Hab. destruct x as [q | | |]; try easy.
  simpl. rewrite !Qle_bool_iff. lra.
Qed.

(** X8: without a full request the selector returns [undefined] exactly
    when [screenWidth <= 1920] fails, which it also does for a screen width
    that is NaN. *)
Theorem getSize_undefined_iff (scr : Screen) (w h : option number) :
  truthy w && truthy h = false ->
  (_getSize scr w h = None <-> num_leb (screenWidth scr) (Fin 1920) = false).
Proof.
  intros Hfalsy. unfold _getSize. rewrite Hfalsy.
  destruct (num_leb (screenWidth scr) (Fin 640)) eqn:E640.
  { rewrite (num_leb_widen _ 640 1920) by (trivial; unfold Qle; simpl; lia).
    split; discriminate. }
  destruct (num_leb (screenWidth scr) (Fin 1366)) eqn:E1366.
  { rewrite (num_leb_widen _ 1366 1920) by (trivial; unfold Qle; simpl; lia).
    split; discriminate. }
  destruct (num_leb (screenWidth scr) (Fin 1920)); split; easy.
Qed.

Lemma getSize_undefined_iff_witness :
  _getSize {| screenWidth := NaN; screenHeight := Fin 768 |} None (Some (Fin 500)) = None
  <-> num_leb NaN (Fin 1920) = false.
Proof.
  exact (getSize_undefined_iff {| screenWidth := NaN; screenHeight := Fin 768 |}
           None (Some (Fin 500)) eq_refl).
Defined.

(** X9: on a screen up to 640 wide the base width 640 never fits: without
    a full request the default width is always [screenWidth - 30]. *)
Theorem getSize_narrow_screen (sw : Q) (sh : number) (w h : option number) :
  truthy w && truthy h = false ->
  (sw <= 640)%Q ->
  exists s,
    _getSize {| screenWidth := Fin sw; screenHeight := sh |} w h = Some s /\
    width s = Fin (sw - 30) /\
    height s = _maxSize (Some (Fin 480)) sh.
Proof.
  intros Hfalsy Hsw. unfold _getSize. rewrite Hfalsy. cbn.
  apply Qle_bool_iff in Hsw as Hb. rewrite Hb.
  eexists. split; [reflexivity|]. cbn. split; [|reflexivity].
  apply (proj2 (_maxSize_finite 640 sw)). lra.
Qed.

Lemma getSize_narrow_screen_witness :
  exists s,
    _getSize {| screenWidth := Fin 480; screenHeight := Fin 800 |} None None = Some s /\
    width s = Fin (480 - 30) /\
    height s = _maxSize (Some (Fin 480)) (Fin 800).
Proof.
  apply (getSize_narrow_screen 480 (Fin 800) None None eq_refl).
  unfold Qle; simpl; lia.
Defined.

(** ** Construction, further *)

(** X10: whatever makes the constructor throw, the error is a DialogError
    and the store is left as it was; outside the add-in host the error is
    the environment one whatever the url is, and inside it the only cause is
    a url that does not begin with https. *)
Theorem constructor_throws_only_DialogError
    (env : Env) (u : option string) (w h : option number) (st st' : world) (e : any) :
  new_Dialog env u w h st = (Throw e, st') ->
  st' = st /\
  error_class e = Some "DialogError" /\
  (isAddin env = false -> e = outside_host) /\
  (isAddin env = true -> String.prefix "https" (default (origin env) u) = false).
Proof.
  unfold new_Dialog.
  destruct (isAddin env); cbn [negb].
  - destruct (String.prefix "https" (default (origin env) u)); cbn [negb].
    + discriminate.
    + intros [= <- <-]. repeat split; easy.
  - intros [= <- <-]. repeat split; easy.
Qed.

Lemma constructor_throws_only_DialogError_witness :
  empty_world = empty_world /\
  error_class outside_host = Some "DialogError" /\
  (false = false -> outside_host = outside_host) /\
  (false = true ->
   String.prefix "https" (default "http://localhost:3000" (Some "ftp://example.com")) = false).
Proof.
  exact (constructor_throws_only_DialogError
           {| isAddin := false; origin := "http://localhost:3000";
              screen := screen_1366x768; messageParent_fault := None |}
           (Some "ftp://example.com") None None empty_world empty_world outside_host
           eq_refl).
Defined.

(** X11: with the url left out the session is opened on [location.origin]:
    inside the add-in host the construction succeeds when the origin begins
    with https and is refused when it does not. *)
Theorem constructor_default_url
    (env : Env) (w h : option number) (st : world) :
  isAddin env = true ->
  (String.prefix "https" (origin env) = true ->
     exists this st' d,
       new_Dialog env None w h st = (Ok this, st') /\
       objects st' !! this = Some d /\ url d = origin env) /\
  (String.prefix "https" (origin env) = false ->
     new_Dialog env None w h st
       = (Throw (DialogError (VString "URL has to be loaded over HTTPS.") VUndefined), st)).
Proof.
  intros Haddin. split; intros Hhttps.
  - eexists _, _, _. split; [now apply new_Dialog_ok|].
    split; [cbn; now apply list_lookup_middle | reflexivity].
  - now apply new_Dialog_not_https.
Qed.

Lemma constructor_default_url_witness :
  exists this st' d,
    new_Dialog office_1366x768 None None None empty_world = (Ok this, st') /\
    objects st' !! this = Some d /\ url d = "https://localhost".
Proof.
  exact (proj1 (constructor_default_url office_1366x768 None None empty_world eq_refl)
           eq_refl).
Defined.

(** X12: construction is lazy: a successful constructor call adds the new
    object, with no result yet, after the ones the store holds, keeps those,
    creates no promise and does not call the host. *)
Theorem constructor_is_lazy
    (env : Env) (u : option string) (w h : option number) (st st' : world) (this : nat) :
  new_Dialog env u w h st = (Ok this, st') ->
  this = length (objects st) /\
  (exists d, objects st' !! this = Some d /\ _result d = None) /\
  (forall i d, objects st !! i = Some d -> objects st' !! i = Some d) /\
  promises st' = promises st /\ displayed st' = displayed st /\
  listeners st' = listeners st /\ closed st' = closed st /\ posted st' = posted st.
Proof.
  intros Hnew. pose proof (new_Dialog_inv _ _ _ _ _ _ _ Hnew) as (Haddin & Hhttps & Hd).
  rewrite (new_Dialog_ok _ _ _ _ _ Haddin Hhttps) in Hnew.
  injection Hnew as <- <-. cbn in *.
  split; [reflexivity|]. split; [eauto|].
  split; [|repeat split].
  intros i d Hi. rewrite lookup_app_l; [exact Hi|].
  eapply lookup_lt_Some; eauto.
Qed.

Lemma constructor_is_lazy_witness :
  1%nat = length (objects one_session) /\
  (exists d,
     objects (snd (new_Dialog office_1366x768 None None None one_session)) !! 1%nat
       = Some d /\ _result d = None) /\
  (forall i d, objects one_session !! i = Some d ->
     objects (snd (new_Dialog office_1366x768 None None None one_session)) !! i = Some d) /\
  promises (snd (new_Dialog office_1366x768 None None None one_session)) = [] /\
  displayed (snd (new_Dialog office_1366x768 None None None one_session)) = [] /\
  listeners (snd (new_Dialog office_1366x768 None None None one_session)) = [] /\
  closed (snd (new_Dialog office_1366x768 None None None one_session)) = [] /\
  posted (snd (new_Dialog office_1366x768 None None None one_session)) = [].
Proof.
  exact (constructor_is_lazy office_1366x768 None None None one_session _ 1 eq_refl).
Defined.

(** ** The static close/send operation, further *)

Lemma messageParent_accepts (env : Env) (text : any) (st : world) :
  messageParent_fault env = None ->
  messageParent env text st = (Ok tt, with_posted (fun ms => ms ++ [text]) st).
Proof.
  intros Hnone. unfold messageParent, bind, modify. now rewrite Hnone.
Qed.


(** The serialiser on the object literal [{ type, value: message }] when
    both members have a text. *)
Lemma stringify_wire_object (tag : string) (m : any) (t : string) :
  JSON_stringify m = Some (Some t) ->
  JSON_stringify (VObject [("type", VString tag); ("value", m)])
    = Some (Some ("{" +:+ String.concat ","
                            [quote "type" +:+ ":" +:+ quote tag;
                             quote "value" +:+ ":" +:+ t] +:+ "}")).
Proof.
  intros Hm. cbn. rewrite Hm. cbn. reflexivity.
Qed.

(** X13: for every string, with quotes, backslashes or control characters
    in it or not, [close] hands the host the one text
    [{"type":"string","value":S}] where [S] is the quoted string, and
    returns. *)
Theorem close_string_message (env : Env) (s : string) (st : world) :
  isAddin env = true ->
  messageParent_fault env = None ->
  close env (VString s) st
    = (Ok tt, with_posted (fun ms => ms ++ [VString (wire_text "string" (quote s))]) st).
Proof.
  intros Haddin Hnone. unfold close. rewrite Haddin. cbn [negb loosely_null].
  unfold bind at 1. cbn [typeof String.eqb Ascii.eqb Bool.eqb ret].
  unfold try_catch.
  rewrite (stringify_wire_object "string" (VString s) (quote s) eq_refl).
  cbn [from_option]. rewrite (messageParent_accepts _ _ _ Hnone).
  reflexivity.
Qed.

Lemma close_string_message_witness :
  close office_1366x768 (VString "line 1\line 2") empty_world
    = (Ok tt,
       with_posted (fun ms => ms ++ [VString (wire_text "string" (quote "line 1\line 2"))])
         empty_world).
Proof.
  exact (close_string_message office_1366x768 "line 1\line 2" empty_world
           eq_refl eq_refl).
Defined.





(** X16: every error that leaves [close] is a DialogError, and apart from
    the list of texts handed to the host the store is as it was; outside
    the add-in host the error is the environment one for every message, a
    function included, and the host is not called. *)
Theorem close_throws_only_DialogError (env : Env) (m e : any) (st st' : world) :
  close env m st = (Throw e, st') ->
  error_class e = Some "DialogError" /\
  objects st' = objects st /\ promises st' = promises st /\
  displayed st' = displayed st /\ listeners st' = listeners st /\
  closed st' = closed st /\
  (isAddin env = false -> e = outside_host /\ st' = st).
Proof.
  unfold close. destruct (isAddin env); cbn [negb].
  2:{ intros [= <- <-]. repeat split; easy. }
  assert (forall text,
            try_catch (messageParent env text)
              (fun error => throw (DialogError (VString "Canno't close dialog") error)) st
              = (Throw e, st') ->
            error_class e = Some "DialogError" /\
            objects st' = objects st /\ promises st' = promises st /\
            displayed st' = displayed st /\ listeners st' = listeners st /\
            closed st' = closed st /\
            (true = false -> e = outside_host /\ st' = st)) as Hsend.
  { intros text. unfold try_catch, messageParent, bind, modify, throw, ret.
    destruct (messageParent_fault env); [|discriminate].
    intros [= <- <-]. repeat split; easy. }
  assert (forall tag,
            try_catch
              (match JSON_stringify (VObject [("type", tag); ("value", m)]) with
               | Some text => messageParent env (from_option VString VUndefined text)
               | None => unmodelled
               end)
              (fun error => throw (DialogError (VString "Canno't close dialog") error)) st
              = (Throw e, st') ->
            error_class e = Some "DialogError" /\
            objects st' = objects st /\ promises st' = promises st /\
            displayed st' = displayed st /\ listeners st' = listeners st /\
            closed st' = closed st /\
            (true = false -> e = outside_host /\ st' = st)) as Hbody.
  { intros tag.
    destruct (JSON_stringify (VObject [("type", tag); ("value", m)])) as [text|].
    - apply Hsend.
    - discriminate. }
  unfold bind at 1.
  destruct (loosely_null m); [apply Hbody|].
  destruct (String.eqb (typeof m) "string"); [apply Hbody|].
  destruct (String.eqb (typeof m) "function"); [|apply Hbody].
  intros [= <- <-]. repeat split; easy.
Qed.

Lemma close_throws_only_DialogError_witness :
  error_class outside_host = Some "DialogError" /\
  objects empty_world = objects empty_world /\
  promises empty_world = promises empty_world /\
  displayed empty_world = displayed empty_world /\
  listeners empty_world = listeners empty_world /\
  closed empty_world = closed empty_world /\
  (false = false -> outside_host = outside_host /\ empty_world = empty_world).
Proof.
  exact (close_throws_only_DialogError
           {| isAddin := false; origin := "https://localhost";
              screen := screen_1366x768; messageParent_fault := None |}
           VFunction outside_host empty_world empty_world eq_refl).
Defined.

(** ** Listeners and the promise they settle *)

Lemma settles_at_most_refl (p : handle) (st : world) : settles_at_most p st st.
Proof. repeat split. Qed.

Lemma settle_frame (p : handle) (s : promise_state) (st : world) :
  fst (settle p s st) = Ok tt /\ settles_at_most p st (snd (settle p s st)).
Proof.
  split; [reflexivity|]. unfold settle, modify, with_promises, snd.
  destruct (promises st !! p) as [[| | |]|] eqn:E;
    repeat split; cbn; try easy.
  - apply length_insert.
  - intros q Hq. now apply list_lookup_insert_ne.
  - intros s0 Hs0 Hsettled. congruence.
Qed.

Lemma resolve_frame (p : handle) (v : any) (st : world) :
  settles_at_most p st (snd (resolve p v st)).
Proof.
  destruct v; try apply settle_frame. apply settles_at_most_refl.
Qed.

Lemma settles_at_most_trans (p : handle) (st1 st2 st3 : world) :
  settles_at_most p st1 st2 -> settles_at_most p st2 st3 -> settles_at_most p st1 st3.
Proof.
  intros (Ho & Hd & Hl & Hp & Hc & Hn & Hother & Hsame)
         (Ho' & Hd' & Hl' & Hp' & Hc' & Hn' & Hother' & Hsame').
  repeat split; try congruence.
  - intros q Hq. rewrite Hother' by exact Hq. now apply Hother.
  - intros s Hs Hsettled.
    rewrite (Hsame' s); [now apply (Hsame s)| |exact Hsettled].
    rewrite (Hsame s Hs Hsettled). exact Hs.
Qed.

Lemma reject_frame (p : handle) (reason : any) (st : world) :
  fst (reject p reason st) = Ok tt /\ settles_at_most p st (snd (reject p reason st)).
Proof. apply settle_frame. Qed.

Lemma resolve_never_throws (p : handle) (v e : any) (st : world) :
  fst (resolve p v st) <> Throw e.
Proof. destruct v; discriminate. Qed.

Lemma listener_body_frame (l : listener) (args : any) (st : world) :
  settles_at_most (listener_promise l) st (snd (listener_body l args st)).
Proof.
  destruct l as [p dialog | p dialog];
    unfold listener_body, try_catch, bind, get_property; cbn [listener_promise].
  - destruct (read_property args "message") as [m | e |].
    + pose proof (resolve_never_throws p m) as Hnt.
      pose proof (resolve_frame p m st) as Hf.
      destruct (resolve p m st) as [[[] | e |] st'] eqn:E; cbn in *;
        solve [exact Hf | exfalso; apply (Hnt e st); now rewrite E].
    + apply reject_frame.
    + apply settles_at_most_refl.
  - destruct (read_property args "message") as [m | e |].
    + destruct (read_property args "error") as [err | e |].
      * apply reject_frame.
      * apply reject_frame.
      * apply settles_at_most_refl.
    + apply reject_frame.
    + apply settles_at_most_refl.
Qed.

Lemma invoke_unfold (l : listener) (args : any) (st : world) :
  snd (invoke l args st)
    = with_closed (fun cs => cs ++ [listener_dialog l]) (snd (listener_body l args st)).
Proof.
  destruct l as [p dialog | p dialog]; unfold invoke, try_finally, dialog_close, modify.
  - change (try_catch (let* m := get_property args "message" in resolve p m)
              (fun exception => reject p (DialogError unexpected exception)))
      with (listener_body (OnMessage p dialog) args).
    destruct (listener_body (OnMessage p dialog) args st) as [r st']. reflexivity.
  - change (try_catch
              (let* m := get_property args "message" in
               let* e := get_property args "error" in
               reject p (DialogError m e))
              (fun exception => reject p (DialogError unexpected exception)))
      with (listener_body (OnEvent p dialog) args).
    destruct (listener_body (OnEvent p dialog) args st) as [r st']. reflexivity.
Qed.

Lemma invoke_frame (l : listener) (args : any) (st : world) :
  closed (snd (invoke l args st)) = closed st ++ [listener_dialog l] /\
  (forall q, q <> listener_promise l ->
     promises (snd (invoke l args st)) !! q = promises st !! q) /\
  length (promises (snd (invoke l args st))) = length (promises st) /\
  objects (snd (invoke l args st)) = objects st /\
  displayed (snd (invoke l args st)) = displayed st /\
  listeners (snd (invoke l args st)) = listeners st /\
  posted (snd (invoke l args st)) = posted st.
Proof.
  rewrite invoke_unfold.
  destruct (listener_body_frame l args st)
    as (Ho & Hd & Hl & Hp & Hc & Hn & Hother & _).
  cbn. rewrite Hc. repeat split; assumption.
Qed.

(** X17: a listener changes nothing in the store but the state of the one
    promise it captures, and asks its host dialog to close exactly once,
    whatever the event's arguments are; the promises of other sessions, the
    session objects and the calls made to the host so far are untouched. *)
Theorem listener_touches_own_promise_only (l : listener) (args : any) (st : world) :
  let st' := snd (invoke l args st) in
  closed st' = closed st ++ [listener_dialog l] /\
  (forall q, q <> listener_promise l -> promises st' !! q = promises st !! q) /\
  length (promises st') = length (promises st) /\
  objects st' = objects st /\ displayed st' = displayed st /\
  listeners st' = listeners st /\ posted st' = posted st.
Proof. exact (invoke_frame l args st). Qed.

(** X18: once its promise is settled a listener cannot change it any more:
    a further message or event leaves every promise as it is, yet the
    listener still asks the host dialog to close once more. *)
Theorem settled_promise_is_final
    (l : listener) (args : any) (s : promise_state) (st : world) :
  promises st !! listener_promise l = Some s ->
  s <> Pending ->
  promises (snd (invoke l args st)) = promises st /\
  closed (snd (invoke l args st)) = closed st ++ [listener_dialog l].
Proof.
  intros Hs Hsettled. rewrite invoke_unfold.
  destruct (listener_body_frame l args st)
    as (_ & _ & _ & _ & Hc & _ & _ & Hsame).
  cbn. rewrite Hc. split; [|reflexivity].
  exact (Hsame s Hs Hsettled).
Qed.

Lemma settled_promise_is_final_witness :
  promises (snd (invoke (OnMessage 0 7) (VObject [("message", VString "again")])
                   (with_promises (fun _ => [Fulfilled (VString "done")]) empty_world)))
    = [Fulfilled (VString "done")] /\
  closed (snd (invoke (OnMessage 0 7) (VObject [("message", VString "again")])
                 (with_promises (fun _ => [Fulfilled (VString "done")]) empty_world)))
    = [7%nat].
Proof.
  apply (settled_promise_is_final (OnMessage 0 7)
           (VObject [("message", VString "again")]) (Fulfilled (VString "done"))
           (with_promises (fun _ => [Fulfilled (VString "done")]) empty_world)).
  - reflexivity.
  - discriminate.
Defined.

(** ** What the host can do to a session *)

Lemma invoke_all_frame (ls : list listener) (args : any) (st : world) :
  objects (snd (invoke_all ls args st)) = objects st /\
  displayed (snd (invoke_all ls args st)) = displayed st /\
  listeners (snd (invoke_all ls args st)) = listeners st /\
  posted (snd (invoke_all ls args st)) = posted st /\
  length (promises (snd (invoke_all ls args st))) = length (promises st) /\
  (forall q, Forall (fun l => listener_promise l <> q) ls ->
     promises (snd (invoke_all ls args st)) !! q = promises st !! q).
Proof.
  revert st. induction ls as [|l rest IH]; intros st.
  - repeat split.
  - destruct (invoke_frame l args st) as (_ & Hother & Hn & Ho & Hd & Hl & Hp).
    cbn [invoke_all]. unfold bind.
    destruct (invoke l args st) as [[[] | e |] st1]; cbn [snd] in *.
    + destruct (IH st1) as (Ho' & Hd' & Hl' & Hp' & Hn' & Hother').
      repeat split; try congruence.
      intros q Hq. inversion Hq as [|? ? Hl0 Hrest]; subst.
      rewrite Hother' by exact Hrest. apply Hother. congruence.
    + repeat split; try assumption.
      intros q Hq. inversion Hq; subst. apply Hother. congruence.
    + repeat split; try assumption.
      intros q Hq. inversion Hq; subst. apply Hother. congruence.
Qed.

Lemma listeners_for_unlistened (q : handle) (dialog : nat) (ev : EventType)
    (ls : list (nat * EventType * listener)) :
  Forall (fun r => listener_promise (snd r) <> q) ls ->
  Forall (fun l => listener_promise l <> q) (listeners_for dialog ev ls).
Proof.
  intros Hall. unfold listeners_for.
  induction Hall as [|r rest Hr _ IH]; cbn; [constructor|].
  destruct (Nat.eqb (fst (fst r)) dialog && EventType_eqb (snd (fst r)) ev); cbn.
  - constructor; assumption.
  - assumption.
Qed.

Lemma dispatch_frame (dialog : nat) (ev : EventType) (args : any) (st : world) :
  objects (snd (dispatch dialog ev args st)) = objects st /\
  displayed (snd (dispatch dialog ev args st)) = displayed st /\
  listeners (snd (dispatch dialog ev args st)) = listeners st /\
  posted (snd (dispatch dialog ev args st)) = posted st /\
  length (promises (snd (dispatch dialog ev args st))) = length (promises st) /\
  (forall q, unlistened q st ->
     promises (snd (dispatch dialog ev args st)) !! q = promises st !! q).
Proof.
  unfold dispatch, bind, get.
  destruct (invoke_all_frame (listeners_for dialog ev (listeners st)) args st)
    as (Ho & Hd & Hl & Hp & Hn & Hother).
  repeat split; try assumption.
  intros q Hq. apply Hother. now apply listeners_for_unlistened.
Qed.

Lemma display_callback_frame (p : handle) (r : AsyncResult) (st : world) :
  objects (snd (display_callback p r st)) = objects st /\
  displayed (snd (display_callback p r st)) = displayed st /\
  posted (snd (display_callback p r st)) = posted st /\
  promises (snd (display_callback p r st)) = promises st /\
  closed (snd (display_callback p r st)) = closed st /\
  (forall q, q <> p -> unlistened q st -> unlistened q (snd (display_callback p r st))).
Proof.
  unfold display_callback, bind, get_property, throw.
  destruct (status r).
  - cbn. repeat split. intros q Hq Hun. unfold unlistened in *. cbn.
    rewrite !Forall_app. repeat split; try assumption;
      constructor; try constructor; cbn; congruence.
  - destruct (read_property (error r) "message"); cbn; repeat split; trivial.
Qed.

Lemma perform_frame (a : host_action) (st : world) :
  objects (snd (perform a st)) = objects st /\
  displayed (snd (perform a st)) = displayed st /\
  posted (snd (perform a st)) = posted st /\
  length (promises (snd (perform a st))) = length (promises st) /\
  (forall q, spares q a -> unlistened q st ->
     promises (snd (perform a st)) !! q = promises st !! q /\
     unlistened q (snd (perform a st))).
Proof.
  destruct a as [p r | dialog ev args]; cbn [perform spares].
  - destruct (display_callback_frame p r st) as (Ho & Hd & Hp & Hs & _ & Hun).
    repeat split; try assumption; try congruence. now apply Hun.
  - destruct (dispatch_frame dialog ev args st) as (Ho & Hd & Hl & Hp & Hn & Hother).
    repeat split; try assumption.
    + now apply Hother.
    + unfold unlistened in *. now rewrite Hl.
Qed.

Lemma perform_all_frame (actions : list host_action) (st : world) :
  objects (perform_all actions st) = objects st /\
  displayed (perform_all actions st) = displayed st /\
  posted (perform_all actions st) = posted st /\
  length (promises (perform_all actions st)) = length (promises st).
Proof.
  revert st. induction actions as [|a rest IH]; intros st; [repeat split|].
  cbn [perform_all].
  destruct (IH (snd (perform a st))) as (Ho & Hd & Hp & Hn).
  destruct (perform_frame a st) as (Ho' & Hd' & Hp' & Hn' & _).
  repeat split; congruence.
Qed.

(** X19: once a session has been opened, nothing the host does afterwards
    (completing callbacks, raising events, in any number and order) makes
    [result] open it again: the read returns the same promise, leaves the
    store alone, and the host has been asked to display a dialog no more
    often than before. *)
Theorem result_is_stable_under_host_actions
    (this : nat) (d : Dialog) (p : handle) (actions : list host_action) (st : world) :
  objects st !! this = Some d ->
  _result d = Some p ->
  result this (perform_all actions st) = (Ok (Some p), perform_all actions st) /\
  displayed (perform_all actions st) = displayed st.
Proof.
  intros Hd Hp.
  destruct (perform_all_frame actions st) as (Ho & Hdisp & _ & _).
  split; [|exact Hdisp].
  apply (result_again this d p); [|exact Hp]. now rewrite Ho.
Qed.

(** X20: a promise that no registered listener captures can never be
    settled by the host: after any actions other than the completion of its
    own callback it is in the state it was in.  This is where a session
    whose display failed is left: pending for good. *)
Theorem unlistened_promise_never_settles
    (p : handle) (actions : list host_action) (st : world) :
  unlistened p st ->
  Forall (spares p) actions ->
  promises (perform_all actions st) !! p = promises st !! p /\
  unlistened p (perform_all actions st).
Proof.
  revert st. induction actions as [|a rest IH]; intros st Hun Hspare; [now split|].
  inversion Hspare as [|? ? Ha Hrest]; subst. cbn [perform_all].
  destruct (perform_frame a st) as (_ & _ & _ & _ & Hstep).
  destruct (Hstep p Ha Hun) as [Hsame Hun'].
  destruct (IH _ Hun' Hrest) as [Hsame' Hun''].
  split; [congruence | exact Hun''].
Qed.

Lemma result_is_stable_under_host_actions_witness :
  result 0 (perform_all busy_host one_open_session)
    = (Ok (Some 0%nat), perform_all busy_host one_open_session) /\
  displayed (perform_all busy_host one_open_session) = displayed one_open_session.
Proof.
  exact (result_is_stable_under_host_actions 0
           (set_result (constructed office_1366x768 "https://example.com" None None) 0)
           0 busy_host one_open_session eq_refl eq_refl).
Defined.

Lemma unlistened_promise_never_settles_witness :
  promises (perform_all stray_events one_open_session) !! 0%nat = Some Pending /\
  unlistened 0 (perform_all stray_events one_open_session).
Proof.
  apply (unlistened_promise_never_settles 0 stray_events one_open_session).
  - constructor.
  - repeat constructor. cbn. discriminate.
Defined.

(** ** Sessions side by side, and what the host is asked *)

Lemma opened_keeps_other (this other : nat) (d : Dialog) (st : world) :
  other <> this ->
  objects (opened this d st) !! other = objects st !! other.
Proof. intros Hne. cbn. apply list_lookup_insert_ne. congruence. Qed.

(** X21: two sessions are independent: opening both gives two different
    promises and one call of the host for each, in the order of the reads,
    and opening the second leaves the first one's memoised promise in
    place. *)
Theorem sessions_are_independent (a b : nat) (da db : Dialog) (st : world) :
  a <> b ->
  objects st !! a = Some da -> _result da = None ->
  objects st !! b = Some db -> _result db = None ->
  exists st1 st2,
    result a st = (Ok (Some (length (promises st))), st1) /\
    result b st1 = (Ok (Some (S (length (promises st)))), st2) /\
    displayed st2
      = displayed st ++ [display_call da (length (promises st));
                         display_call db (S (length (promises st)))] /\
    result a st2 = (Ok (Some (length (promises st))), st2).
Proof.
  intros Hne Ha Hfa Hb Hfb.
  assert (objects (opened a da st) !! b = Some db) as Hb1
    by (rewrite opened_keeps_other by congruence; assumption).
  assert (length (promises (opened a da st)) = S (length (promises st))) as Hlen
    by (cbn; rewrite length_app; cbn; lia).
  exists (opened a da st), (opened b db (opened a da st)).
  split; [exact (result_first _ _ _ Ha Hfa)|].
  split; [rewrite <- Hlen; exact (result_first _ _ _ Hb1 Hfb)|].
  split.
  - cbn. rewrite length_app, <- app_assoc. cbn.
    replace (length (promises st) + 1)%nat with (S (length (promises st))) by lia.
    reflexivity.
  - apply (result_again a (set_result da (length (promises st)))); [|reflexivity].
    rewrite opened_keeps_other by congruence.
    now apply opened_object.
Qed.

Lemma sessions_are_independent_witness :
  exists st1 st2,
    result 0 two_sessions = (Ok (Some 0%nat), st1) /\
    result 1 st1 = (Ok (Some 1%nat), st2) /\
    displayed st2
      = [display_call (constructed office_1366x768 "https://example.com/a" None None) 0;
         display_call (constructed office_1366x768 "https://example.com/b"
                         (Some (Fin 800)) (Some (Fin 600))) 1] /\
    result 0 st2 = (Ok (Some 0%nat), st2).
Proof.
  apply (sessions_are_independent 0 1 _ _ two_sessions);
    solve [reflexivity | discriminate].
Defined.



(** ** The event listener and the parse helper *)

(** X23: on a session awaiting it, a host event carrying [message] and
    [error] rejects the promise with a DialogError built from the two
    (a member that is absent counts as [undefined]); when the host passes
    no arguments at all the rejection wraps the TypeError of the failed
    read; either way the host dialog's [close] is called exactly once. *)
Theorem event_received_rejects_and_closes
    (st : world) (p : handle) (dialog : nat) :
  awaiting_event st p dialog ->
  (forall props,
     exists st',
       dispatch dialog DialogEventReceived (VObject props) st = (Ok tt, st') /\
       promises st' !! p
         = Some (Rejected (DialogError (default VUndefined (own_property "message" props))
                                       (default VUndefined (own_property "error" props)))) /\
       closed st' = closed st ++ [dialog]) /\
  (forall args, args = VUndefined \/ args = VNull ->
     exists st',
       dispatch dialog DialogEventReceived args st = (Ok tt, st') /\
       promises st' !! p = Some (Rejected (DialogError unexpected TypeError)) /\
       closed st' = closed st ++ [dialog]).
Proof.
  intros [Hpending Hlistener]. split.
  - intros props. eexists. split; [|split].
    + unfold dispatch, bind, get. rewrite Hlistener. cbn [invoke_all].
      unfold bind, invoke, try_finally, try_catch, bind, get_property, reject.
      cbn [read_property]. rewrite (settle_pending _ _ _ Hpending). reflexivity.
    + now apply settled_state.
    + reflexivity.
  - intros args Hargs. eexists. split; [|split].
    + unfold dispatch, bind, get. rewrite Hlistener. cbn [invoke_all].
      unfold bind, invoke, try_finally, try_catch, bind, get_property, reject.
      destruct Hargs as [-> | ->]; cbn [read_property];
        rewrite (settle_pending _ _ _ Hpending); reflexivity.
    + destruct Hargs as [-> | ->]; now apply settled_state.
    + destruct Hargs as [-> | ->]; reflexivity.
Qed.

Lemma event_received_rejects_and_closes_witness :
  exists st',
    dispatch 7 DialogEventReceived generic_event session_on_dialog_7 = (Ok tt, st') /\
    promises st' !! 0%nat
      = Some (Rejected (DialogError (VString "closed") (VNumber (Fin 42)))) /\
    closed st' = [7%nat].
Proof.
  exact (proj1 (event_received_rejects_and_closes session_on_dialog_7 0 7
                  (conj eq_refl eq_refl))
           [("message", VString "closed"); ("error", VNumber (Fin 42))]).
Defined.

(** X24: [_safeParse] never throws, whatever [JSON.parse] does: it returns
    the parsed value when the parse returns one and the input string itself
    when the parse throws, and it leaves the store alone. *)
Theorem safeParse_never_throws
    (JSON_parse : string -> any + any) (data : string) (st : world) :
  exists v,
    _safeParse JSON_parse data st = (Ok v, st) /\
    match JSON_parse data with
    | inl parsed => v = parsed
    | inr _ => v = VString data
    end.
Proof.
  unfold _safeParse, try_catch, ret.
  destruct (JSON_parse data) as [parsed | e]; eexists; split; reflexivity.
Qed.

Lemma session_opens_witness :
  exists st1 st2,
    result 0 one_session = (Ok (Some 0%nat), st1) /\
    display_callback 0 {| status := Succeeded; error := VUndefined; value := 7 |} st1
      = (Ok tt, st2) /\
    open_session st2 0 7 /\
    closed st2 = [].
Proof.
  exact (session_opens 0 (constructed office_1366x768 "https://example.com" None None)
           7 VUndefined one_session eq_refl eq_refl eq_refl).
Defined.
